(** * trans-tally: the receipt ingestion and extraction pipeline

    A shallow embedding of the two pieces of code that make up the
    pipeline:

    - [supabase/functions/process-receipt/index.ts], the edge function
      (the "Extraction Worker"), embedded in module [Worker];
    - [src/components/dashboard/ReceiptUpload.tsx], the upload component
      (the "Upload Orchestrator"), embedded in module [Upload].

    The [receipts] table of the README schema is a finite map from the
    primary key [id] to the remaining columns.  The Numbers of the
    worker's payload are IEEE 754 binary64 values, computed with the
    operations of the Standard Library's [SpecFloat]; the amounts of
    the transactions, DECIMAL(10,2) in the schema, are exact
    rationals. *)

From Stdlib Require Import ZArith QArith Qround String Ascii List Lia Sorted SpecFloat.
From stdpp Require Import gmap strings list fin_maps sorting.

Local Open Scope string_scope.
Local Open Scope Z_scope.

(** ** The ECMAScript library functions the code calls *)

Module Js.

Definition msPerDay : Z := 86400000.

(** [Day(t)] and the time-of-day fields of ECMA-262, on a time value in
    milliseconds since the epoch. *)
Definition Day (t : Z) : Z := t / msPerDay.
Definition HourFromTime (t : Z) : Z := (t / 3600000) mod 24.
Definition MinFromTime (t : Z) : Z := (t / 60000) mod 60.
Definition SecFromTime (t : Z) : Z := (t / 1000) mod 60.
Definition msFromTime (t : Z) : Z := t mod 1000.

(** Day within the 400-year era, counted from 1 March of a year
    divisible by 400. *)
Definition doe_of (z : Z) : Z := (z + 719468) mod 146097.
Definition era_of (z : Z) : Z := (z + 719468) / 146097.

Definition yoe_of (doe : Z) : Z :=
  (doe - doe / 1460 + doe / 36524 - doe / 146096) / 365.
Definition doy_of (doe : Z) : Z :=
  let yoe := yoe_of doe in doe - (365 * yoe + yoe / 4 - yoe / 100).
Definition mp_of (doe : Z) : Z := (5 * doy_of doe + 2) / 153.

(** [MonthFromTime + 1], [DateFromTime] and [YearFromTime], from the day
    number. *)
Definition month_of_doe (doe : Z) : Z :=
  let mp := mp_of doe in if mp <? 10 then mp + 3 else mp - 9.
Definition date_of_doe (doe : Z) : Z :=
  doy_of doe - (153 * mp_of doe + 2) / 5 + 1.
Definition year_of_doe (doe : Z) : Z :=
  yoe_of doe + (if month_of_doe doe <=? 2 then 1 else 0).

Definition MonthFromDay (z : Z) : Z := month_of_doe (doe_of z).
Definition DateFromDay (z : Z) : Z := date_of_doe (doe_of z).
Definition YearFromDay (z : Z) : Z := era_of z * 400 + year_of_doe (doe_of z).

Definition InLeapYear (y : Z) : bool :=
  ((y mod 4 =? 0) && negb (y mod 100 =? 0)) || (y mod 400 =? 0).

Definition DaysInMonth (y m : Z) : Z :=
  if m =? 2 then (if InLeapYear y then 29 else 28)
  else if (m =? 4) || (m =? 6) || (m =? 9) || (m =? 11) then 30
  else 31.

(** [MakeDay]: the day number of a calendar date. *)
Definition DayFromYear (y : Z) : Z :=
  365 * (y - 1970) + (y - 1969) / 4 - (y - 1901) / 100 + (y - 1601) / 400.

(** The days of the first [n] months of year [y]. *)
Fixpoint days_of_months (y : Z) (n : nat) : Z :=
  match n with
  | O => 0
  | S n' => days_of_months y n' + DaysInMonth y (Z.of_nat n)
  end.

Definition MakeDay (y m d : Z) : Z :=
  DayFromYear y + days_of_months y (Z.to_nat (m - 1)) + (d - 1).

(** Decimal digits. *)
Definition digit (k : Z) : ascii := ascii_of_N (48 + Z.to_N (k mod 10)).

Fixpoint pad (w : nat) (n : Z) : string :=
  match w with
  | O => ""
  | S w' => pad w' (n / 10) ++ String (digit n) ""
  end.

(** Four digits for the years 0000 to 9999, the expanded form (a sign
    and six digits) outside. *)
Definition year_string (y : Z) : string :=
  if (0 <=? y) && (y <=? 9999) then pad 4 y
  else (if y <? 0 then "-" else "+") ++ pad 6 (Z.abs y).

Definition toISOString (t : Z) : string :=
  let z := Day t in
  year_string (YearFromDay z) ++ "-" ++ pad 2 (MonthFromDay z) ++ "-"
    ++ pad 2 (DateFromDay z) ++ "T"
    ++ pad 2 (HourFromTime t) ++ ":" ++ pad 2 (MinFromTime t) ++ ":"
    ++ pad 2 (SecFromTime t) ++ "." ++ pad 3 (msFromTime t) ++ "Z".

(** [String.prototype.split] with a one-character separator. *)
Fixpoint split (sep : ascii) (s : string) : list string :=
  match s with
  | EmptyString => [""]
  | String c s' =>
      if Ascii.eqb c sep then "" :: split sep s'
      else match split sep s' with
           | [] => [String c ""]
           | p :: ps => String c p :: ps
           end
  end.

End Js.

(** ** The Number type: IEEE 754 binary64 *)

Module Double.

Definition prec : Z := 53.
Definition emax : Z := 1024.

(** [x * y] and [x / y] on Numbers. *)
Definition mul : spec_float -> spec_float -> spec_float := SFmul prec emax.
Definition div : spec_float -> spec_float -> spec_float := SFdiv prec emax.

(** The Number an integer literal denotes (exactly, below 2^53). *)
Definition of_Z (n : Z) : spec_float := binary_normalize prec emax n 0 false.

(** [Math.floor(x)]: NaN, the infinities and the zeros are returned as
    they are; a finite [x] gives the greatest integer not above it. *)
Definition floor (x : spec_float) : spec_float :=
  match x with
  | S754_finite s m e => of_Z (Z.shiftl (cond_Zopp s (Zpos m)) e)
  | _ => x
  end.

(** [n / 100].  For [n] below 2^53 both operands are exact and the
    division rounds to nearest, ties to even, so this is also the Number
    a decimal literal with two places denotes: [cents 1599] is [15.99]. *)
Definition cents (n : Z) : spec_float := div (of_Z n) (of_Z 100).

(** What ECMA-262 asks of [Math.random()]: a Number with positive sign,
    greater than or equal to +0 and less than 1. *)
Definition unit_interval (x : spec_float) : bool :=
  match x with
  | S754_zero false => true
  | S754_finite false m e => bounded prec emax m e && SFltb x (of_Z 1)
  | _ => false
  end.

(** [0 <= x]. *)
Definition nonneg (x : spec_float) : bool := SFleb (of_Z 0) x.

(** A zero, a finite Number or an infinity of positive sign. *)
Definition positive_sign (x : spec_float) : bool :=
  match x with
  | S754_zero false | S754_finite false _ _ | S754_infinity false => true
  | _ => false
  end.

(** The real number a finite Number stands for. *)
Definition value (x : spec_float) : option Q :=
  match x with
  | S754_zero _ => Some 0%Q
  | S754_finite s m e => Some (inject_Z (cond_Zopp s (Zpos m)) * 2 ^ e)%Q
  | _ => None
  end.

End Double.

(** ** The receipts table *)

(** The four values the README's CHECK constraint on
    [processing_status] admits (also the [Receipt] type of
    [src/lib/supabase.ts]). *)
Inductive ProcessingStatus : Type :=
  | pending
  | processing
  | completed
  | failed.

#[global] Instance ProcessingStatus_eq_dec : EqDecision ProcessingStatus.
Proof. solve_decision. Defined.

Record Item : Type := { name : string; price : spec_float }.

(** The JSON value held by the [extracted_data] column. *)
Record ExtractedData : Type := {
  total : spec_float;
  date : string;
  merchant : string;
  items : list Item
}.

(** A row of [receipts]; the primary key [id] is the key of the map.
    [user_id] and [extracted_data] are nullable columns. *)
Record Receipt : Type := {
  user_id : option string;
  file_url : string;
  file_name : string;
  processing_status : ProcessingStatus;
  extracted_data : option ExtractedData;
  created_at : string
}.

Abbreviation Receipts := (gmap string Receipt).

(** The object handed to [.update(...)]: only the named columns change. *)
Record Patch : Type := {
  set_processing_status : option ProcessingStatus;
  set_extracted_data : option ExtractedData
}.

Definition apply_patch (p : Patch) (r : Receipt) : Receipt :=
  {| user_id := user_id r;
     file_url := file_url r;
     file_name := file_name r;
     processing_status := default (processing_status r) (set_processing_status p);
     extracted_data :=
       match set_extracted_data p with
       | Some d => Some d
       | None => extracted_data r
       end;
     created_at := created_at r |}.

(** Row-level security of the README: a caller sees and updates only the
    rows whose [user_id] is the caller's ([auth.uid() = user_id]). *)
Definition owned_by (uid : string) (r : Receipt) : bool :=
  bool_decide (user_id r = Some uid).

(** [.from('receipts').update(p).eq('id', rid)] issued by [uid]. *)
Definition db_update (uid rid : string) (p : Patch) (db : Receipts) : Receipts :=
  match db !! rid with
  | Some r => if owned_by uid r then <[rid := apply_patch p r]> db else db
  | None => db
  end.

(** [.from('receipts').select('file_url').eq('id', rid).single()] issued
    by [uid]: the [file_url] of the one matching row, if there is one. *)
Definition db_select_file_url (uid rid : string) (db : Receipts) : option string :=
  match db !! rid with
  | Some r => if owned_by uid r then Some (file_url r) else None
  | None => None
  end.

(** A row arriving in the table with the three columns that
    [.from('receipts').insert({file_url, file_name, processing_status:
    'pending'})] of [createReceiptRecord] names.  The insert names no
    [user_id]; [owner] is what the column ends up holding, which under
    the README schema (no default on [user_id]) is null for this
    insert.  The store chooses the key and the creation time; a key
    already taken is refused. *)
Definition db_insert_pending (rid : string) (owner : option string)
    (url fname created : string) (db : Receipts) : Receipts :=
  match db !! rid with
  | Some _ => db
  | None =>
      <[rid := {| user_id := owner; file_url := url; file_name := fname;
                  processing_status := pending; extracted_data := None;
                  created_at := created |}]> db
  end.

(** ** The Extraction Worker: [supabase/functions/process-receipt/index.ts] *)

Module Worker.

(** What the handler reads of the incoming request: the HTTP method,
    the [Authorization] header, and the [receipt_id] of the JSON body
    ([None] when [req.json()] throws or the body cannot be
    destructured). *)
Record Request : Type := {
  method : string;
  authorization : option string;
  json_body : option string
}.

(** What the handler takes from its surroundings: the auth service
    behind [auth.getUser()], [Math.random()], the clock read by
    [new Date()], and for each call to the record store whether it
    comes back without an [error]. *)
Record Env : Type := {
  getUser : option string -> option string;
  random : spec_float;
  now : Z;
  update_processing_ok : bool;
  select_ok : bool;
  update_completed_ok : bool;
  update_failed_ok : bool;
  update_error_message : string;
  json_error_message : string
}.

(** The body of a response: the text ['ok'], ['Unauthorized'] or
    ['Receipt not found'], the object [{ data: mockExtractedData }] of
    line 84, or the object [{ error: message }] of lines 78 and 89. *)
Inductive Body : Type :=
  | Text (s : string)
  | JsonData (data : ExtractedData)
  | JsonError (message : string).

Record Response : Type := { status : Z; body : Body }.

(** A call the handler makes to the record store. *)
Inductive Call : Type :=
  | Update (uid rid : string) (p : Patch)
  | Select (uid rid : string).

(** The record store as the handler threads it: the table, the calls
    made so far, and the table as it stood after each update. *)
Record World : Type := {
  table : Receipts;
  calls : list Call;
  snapshots : list Receipts
}.

Definition M (A : Type) : Type := World -> A * World.

#[global] Instance M_ret : MRet M := fun A a w => (a, w).
#[global] Instance M_bind : MBind M :=
  fun A B k m w => let '(a, w') := m w in k a w'.

(** [await supabaseClient.from('receipts').update(p).eq('id', rid)];
    the result says whether [error] is null. *)
Definition update (ok : bool) (uid rid : string) (p : Patch) : M bool :=
  fun w =>
    let t := if ok then db_update uid rid p (table w) else table w in
    (ok, {| table := t;
            calls := calls w ++ [Update uid rid p];
            snapshots := snapshots w ++ [t] |}).

(** [await ... .select('file_url').eq('id', rid).single()]; the result
    is [data]. *)
Definition select_single (ok : bool) (uid rid : string) : M (option string) :=
  fun w =>
    (if ok then db_select_file_url uid rid (table w) else None,
     {| table := table w;
        calls := calls w ++ [Select uid rid];
        snapshots := snapshots w |}).

(** Lines 52-60; the prices are the literals [15.99] and [23.50]. *)
Definition mockExtractedData (env : Env) : ExtractedData :=
  {| total :=
       Double.div
         (Double.floor (Double.mul (random env) (Double.of_Z 10000)))
         (Double.of_Z 100);
     date := hd "" (Js.split "T" (Js.toISOString (now env)));
     merchant := "Sample Store";
     items := [ {| name := "Item 1"; price := Double.cents 1599 |};
                {| name := "Item 2"; price := Double.cents 2350 |} ] |}.

(** The function passed to [serve], lines 9-93. *)
Definition handler (req : Request) (env : Env) : M Response :=
  if String.eqb (method req) "OPTIONS" then
    mret {| status := 200; body := Text "ok" |}
  else
    match getUser env (authorization req) with
    | None => mret {| status := 401; body := Text "Unauthorized" |}
    | Some user =>
        match json_body req with
        | None =>
            mret {| status := 500; body := JsonError (json_error_message env) |}
        | Some receipt_id =>
            update (update_processing_ok env) user receipt_id
              {| set_processing_status := Some processing;
                 set_extracted_data := None |} ;;
            receipt ← select_single (select_ok env) user receipt_id ;
            match receipt with
            | None => mret {| status := 404; body := Text "Receipt not found" |}
            | Some _ =>
                noerror ← update (update_completed_ok env) user receipt_id
                  {| set_processing_status := Some completed;
                     set_extracted_data := Some (mockExtractedData env) |} ;
                if (noerror : bool) then
                  mret {| status := 200; body := JsonData (mockExtractedData env) |}
                else
                  update (update_failed_ok env) user receipt_id
                    {| set_processing_status := Some failed;
                       set_extracted_data := None |} ;;
                  mret {| status := 400;
                         body := JsonError (update_error_message env) |}
            end
        end
    end.

(** One invocation against a table. *)
Definition fresh (db : Receipts) : World :=
  {| table := db; calls := []; snapshots := [] |}.

Definition invoke (req : Request) (env : Env) (db : Receipts) : Response * World :=
  handler req env (fresh db).

End Worker.

(** ** The Upload Orchestrator: [src/components/dashboard/ReceiptUpload.tsx] *)

Module Upload.

(** What [handleFileUpload] reads of a browser [File]. *)
Record File : Type := { name : string; type : string; size : Z }.

Record Toast : Type := {
  title : string;
  description : string;
  variant : option string
}.

(** Everything [handleFileUpload] does to the outside, in the order it
    does it: React state setters, toasts, the callback, and the three
    calls that go over the network. *)
Inductive Event : Type :=
  | setUploading (b : bool)
  | setProcessing (b : bool)
  | setProgress (n : Z)
  | setExtractedData (data : Worker.Body)
  | toast (t : Toast)
  | console_error (e : string)
  | onReceiptProcessed
  | storage_upload (path : string) (file : File)
  | receipts_insert (url fname : string) (st : ProcessingStatus)
  | functions_invoke (fn receipt_id : string).

Definition is_network_call (e : Event) : bool :=
  match e with
  | storage_upload _ _ | receipts_insert _ _ _ | functions_invoke _ _ => true
  | _ => false
  end.

(** What the backend answers: the text of [Math.random()], the error of
    the storage upload if any, the public URL of a path, the [id] of
    the inserted row or the insert's error, and what
    [supabase.functions.invoke] gives back: its [error], or as [data]
    the parsed body of the function's response. *)
Record Env : Type := {
  random_text : string;
  uploadError : option string;
  getPublicUrl : string -> string;
  insert_result : string + string;
  invoke_result : string + Worker.Body
}.

(** An [async] body: the events so far, and a thrown error or a value. *)
Definition Async (A : Type) : Type := list Event * (string + A).

#[global] Instance Async_ret : MRet Async := fun A a => ([], inr a).
#[global] Instance Async_bind : MBind Async :=
  fun A B k m =>
    match m with
    | (l, inl e) => (l, inl e)
    | (l, inr a) => let '(l', r) := k a in ((l ++ l')%list, r)
    end.

Definition emit (e : Event) : Async unit := ([e], inr tt).
Definition throw {A} (e : string) : Async A := ([], inl e).

(** [try { body } catch (error) { handle error } finally { fin }], for
    handlers and [finally] blocks that do not throw. *)
Definition try_catch_finally (body : Async unit) (handle : string -> list Event)
    (fin : list Event) : list Event :=
  match body with
  | (l, inl e) => (l ++ handle e ++ fin)%list
  | (l, inr _) => (l ++ fin)%list
  end.

Definition last_piece (sep : ascii) (s : string) : string :=
  List.last (Js.split sep s) "".

(** Lines 22-40. *)
Definition uploadFile (env : Env) (file : File) : Async (string * string) :=
  let fileExt := last_piece "." (name file) in
  let fileName := random_text env ++ "." ++ fileExt in
  let filePath := "receipts/" ++ fileName in
  emit (storage_upload filePath file) ;;
  match uploadError env with
  | Some e => throw e
  | None => mret (filePath, getPublicUrl env filePath)
  end.

(** Lines 42-58; the result is the [id] of the new row. *)
Definition createReceiptRecord (env : Env) (file : File)
    (filePath publicUrl : string) : Async string :=
  emit (receipts_insert publicUrl (name file) pending) ;;
  match insert_result env with
  | inl e => throw e
  | inr id => mret id
  end.

(** Lines 60-70: [data] is returned as it is. *)
Definition processReceipt (env : Env) (receiptId : string) : Async Worker.Body :=
  emit (functions_invoke "process-receipt" receiptId) ;;
  match invoke_result env with
  | inl e => throw e
  | inr data => mret data
  end.

Definition validTypes : list string :=
  ["image/jpeg"; "image/png"; "image/webp"; "application/pdf"].

Definition includes (l : list string) (s : string) : bool :=
  existsb (String.eqb s) l.

Definition invalid_type_toast : Toast :=
  {| title := "Invalid file type";
     description := "Please upload an image (JPEG, PNG, WebP) or PDF file";
     variant := Some "destructive" |}.

Definition too_large_toast : Toast :=
  {| title := "File too large";
     description := "Please upload a file smaller than 10MB";
     variant := Some "destructive" |}.

Definition success_toast : Toast :=
  {| title := "Receipt processed successfully";
     description := "Transaction data has been extracted from your receipt";
     variant := None |}.

Definition error_toast : Toast :=
  {| title := "Error";
     description := "Failed to process receipt. Please try again.";
     variant := Some "destructive" |}.

(** Lines 101-124, the body of the [try]. *)
Definition upload_body (env : Env) (file : File) : Async unit :=
  '(filePath, publicUrl) ← uploadFile env file ;
  emit (setProgress 30) ;;
  receipt_id ← createReceiptRecord env file filePath publicUrl ;
  emit (setProgress 50) ;;
  emit (setUploading false) ;;
  emit (setProcessing true) ;;
  extractedData ← processReceipt env receipt_id ;
  emit (setProgress 100) ;;
  emit (setExtractedData extractedData) ;;
  emit (toast success_toast) ;;
  emit onReceiptProcessed.

(** Lines 72-137; [files] is [None] for [null]. *)
Definition handleFileUpload (env : Env) (files : option (list File)) : list Event :=
  match files with
  | None | Some [] => []
  | Some (file :: _) =>
      if negb (includes validTypes (type file)) then [toast invalid_type_toast]
      else if size file >? 10 * 1024 * 1024 then [toast too_large_toast]
      else
        ([setUploading true; setProgress 10] ++
         try_catch_finally (upload_body env file)
           (fun error => [console_error error; toast error_toast])
           [setUploading false; setProcessing false; setProgress 0])%list
  end.

(** The values the progress indicator takes, in order. *)
Definition progress_values (tr : list Event) : list Z :=
  omap (fun e => match e with setProgress n => Some n | _ => None end) tr.

Definition network_calls (tr : list Event) : list Event :=
  List.filter is_network_call tr.

Definition toasts (tr : list Event) : list Toast :=
  omap (fun e => match e with toast t => Some t | _ => None end) tr.

End Upload.

(** ** Histories, invariants and the words of the specification *)

Definition status_of (rid : string) (db : Receipts) : option ProcessingStatus :=
  processing_status <$> db !! rid.

Definition payload_of (rid : string) (db : Receipts) : option ExtractedData :=
  db !! rid ≫= extracted_data.







(** The operations that reach the table: the orchestrator's insert and
    an invocation of the worker. *)
Inductive Op : Type :=
  | Create (rid : string) (owner : option string) (url fname created : string)
  | Extract (req : Worker.Request) (env : Worker.Env).

Definition exec (op : Op) (db : Receipts) : Worker.World :=
  match op with
  | Create rid owner url fname created =>
      let db' := db_insert_pending rid owner url fname created db in
      {| Worker.table := db'; Worker.calls := []; Worker.snapshots := [db'] |}
  | Extract req env => snd (Worker.invoke req env db)
  end.

(** Every state the table goes through under a sequence of operations. *)
Fixpoint run (ops : list Op) (db : Receipts) : list Receipts :=
  match ops with
  | [] => []
  | op :: ops' =>
      let w := exec op db in
      (Worker.snapshots w ++ run ops' (Worker.table w))%list
  end.

(** The update calls that carry a payload, and those that set
    [completed]. *)
Definition carries_payload (c : Worker.Call) : bool :=
  match c with
  | Worker.Update _ _ p => bool_decide (is_Some (set_extracted_data p))
  | Worker.Select _ _ => false
  end.

Definition sets_completed (c : Worker.Call) : bool :=
  match c with
  | Worker.Update _ _ p => bool_decide (set_processing_status p = Some completed)
  | Worker.Select _ _ => false
  end.

(** Two tables that differ at most in the [file_url] column. *)
Definition without_file_url (r : Receipt) : Receipt :=
  {| user_id := user_id r; file_url := ""; file_name := file_name r;
     processing_status := processing_status r;
     extracted_data := extracted_data r; created_at := created_at r |}.

Definition same_but_file_url (db1 db2 : Receipts) : Prop :=
  without_file_url <$> db1 = without_file_url <$> db2.

(** "an ISO calendar date ([YYYY-MM-DD])": four digits, a dash, two
    digits, a dash, two digits, naming a month of the year and a day of
    that month. *)
Definition digit_value (c : ascii) : option Z :=
  let n := Z.of_N (N_of_ascii c) in
  if (48 <=? n) && (n <=? 57) then Some (n - 48) else None.

Definition is_dash (c : ascii) : bool := Ascii.eqb c "-".

Definition is_iso_date (s : string) : bool :=
  match list_ascii_of_string s with
  | [y1; y2; y3; y4; a; m1; m2; b; d1; d2] =>
      match digit_value y1, digit_value y2, digit_value y3, digit_value y4,
            digit_value m1, digit_value m2, digit_value d1, digit_value d2 with
      | Some y1, Some y2, Some y3, Some y4, Some m1, Some m2, Some d1, Some d2 =>
          let y := 1000 * y1 + 100 * y2 + 10 * y3 + y4 in
          let m := 10 * m1 + m2 in
          let d := 10 * d1 + d2 in
          is_dash a && is_dash b && (1 <=? m) && (m <=? 12) && (1 <=? d)
            && (d <=? Js.DaysInMonth y m)
      | _, _, _, _, _, _, _, _ => false
      end
  | _ => false
  end.

(** "a non-negative decimal with two-digit cent precision". *)
Definition is_cents (q : Q) : Prop :=
  exists cents : Z, 0 <= cents /\ (q == cents # 100)%Q.

(** The clock readings whose year is 0000 to 9999. *)
Definition four_digit_year (t : Z) : Prop :=
  -62167219200000 <= t < 253402300800000.


(** The days of a common year that precede each month. *)
Definition days_before_month : list Z :=
  [0; 31; 59; 90; 120; 151; 181; 212; 243; 273; 304; 334].

(** [YYYY-MM-DD] as [toISOString] writes it. *)
Definition date_text (y m d : Z) : string :=
  Js.pad 4 y ++ "-" ++ Js.pad 2 m ++ "-" ++ Js.pad 2 d.

(** The three objects the worker hands to [.update(...)], lines 36, 65-68
    and 75. *)
Definition mark_processing : Patch :=
  {| set_processing_status := Some processing; set_extracted_data := None |}.

Definition store_result (d : ExtractedData) : Patch :=
  {| set_processing_status := Some completed; set_extracted_data := Some d |}.

Definition mark_failed : Patch :=
  {| set_processing_status := Some failed; set_extracted_data := None |}.

Definition worker_patch (p : Patch) : Prop :=
  p = mark_processing \/ (exists d, p = store_result d) \/ p = mark_failed.

(** Whether an update issued by [uid] for the key [rid] reaches the row
    at key [k]. *)
Definition hits (uid rid k : string) (db : Receipts) : bool :=
  bool_decide (k = rid) && from_option (owned_by uid) false (db !! k).

(** The payloads an invocation produces: the one in its response and the
    ones in its update calls. *)
Definition produces (req : Worker.Request) (env : Worker.Env) (db : Receipts)
    (d : ExtractedData) : Prop :=
  Worker.body (fst (Worker.invoke req env db)) = Worker.JsonData d
  \/ exists uid rid p,
       In (Worker.Update uid rid p) (Worker.calls (snd (Worker.invoke req env db)))
       /\ set_extracted_data p = Some d.

(** The format the specification asks of a payload: the total a whole
    number of cents, the date a calendar date, the prices not
    negative. *)
Definition well_formed_payload (d : ExtractedData) : Prop :=
  (exists q, Double.value (total d) = Some q /\ is_cents q)
  /\ is_iso_date (date d) = true
  /\ Forall (fun i => Double.nonneg (price i) = true) (items d).

(** The format the payloads have: the total is [cents / 100] as
    JavaScript computes it, for a whole number of cents from 0 to 9999,
    which is the Number the decimal with two places denotes and in
    general not that decimal itself. *)
Definition well_formed_in_binary64 (d : ExtractedData) : Prop :=
  (exists cents : Z, 0 <= cents <= 9999 /\ total d = Double.cents cents)
  /\ Double.nonneg (total d) = true
  /\ is_iso_date (date d) = true
  /\ Forall (fun i => Double.nonneg (price i) = true) (items d).

(** The progress settings and the network calls of a run, in the order
    they are made. *)
Definition progress_and_calls (tr : list Upload.Event) : list Upload.Event :=
  List.filter
    (fun e => match e with
              | Upload.setProgress _ => true
              | _ => Upload.is_network_call e
              end)
    tr.

(** A run of [handleFileUpload] succeeds when none of its three steps
    throws. *)
Definition succeeds (env : Upload.Env) : bool :=
  match Upload.uploadError env, Upload.insert_result env, Upload.invoke_result env with
  | None, inr _, inr _ => true
  | _, _, _ => false
  end.

Definition checkpoints : list Z := [10; 30; 50; 100].

(** ** Sample data *)

Module Sample.

(** [Math.random()] answers 0.123456. *)

Definition env : Worker.Env :=
  {| Worker.getUser :=
       fun t => match t with
                | Some tok => if String.eqb tok "token-1" then Some "user-1" else None
                | None => None
                end;
     Worker.random := Double.div (Double.of_Z 123456) (Double.of_Z 1000000);
     Worker.now := 1793689200123;
     Worker.update_processing_ok := true;
     Worker.select_ok := true;
     Worker.update_completed_ok := true;
     Worker.update_failed_ok := true;
     Worker.update_error_message := "update failed";
     Worker.json_error_message := "Unexpected end of JSON input" |}.

(** [supabase.functions.invoke('process-receipt', { body: { receipt_id } })]. *)
Definition req : Worker.Request :=
  {| Worker.method := "POST";
     Worker.authorization := Some "token-1";
     Worker.json_body := Some "receipt-1" |}.

(** The browser's preflight of the same call. *)
Definition preflight : Worker.Request :=
  {| Worker.method := "OPTIONS";
     Worker.authorization := None;
     Worker.json_body := None |}.

Definition old_payload : ExtractedData :=
  {| total := Double.cents 4250; date := "2026-10-31"; merchant := "Sample Store";
     items := [ {| name := "Item 1"; price := Double.cents 1599 |};
                {| name := "Item 2"; price := Double.cents 2350 |} ] |}.

Definition receipt (st : ProcessingStatus) (d : option ExtractedData) (url : string)
    : Receipt :=
  {| user_id := Some "user-1"; file_url := url; file_name := "lunch.jpg";
     processing_status := st; extracted_data := d;
     created_at := "2026-11-03T06:59:00Z" |}.

Definition url_a : string := "https://store.example/receipts/0.25.jpg".
Definition url_b : string := "https://store.example/receipts/0.75.pdf".

Definition pending_table : Receipts :=
  {[ "receipt-1" := receipt pending None url_a ]}.

Definition completed_table : Receipts :=
  {[ "receipt-1" := receipt completed (Some old_payload) url_a ]}.

Definition completed_table_b : Receipts :=
  {[ "receipt-1" := receipt completed (Some old_payload) url_b ]}.


Definition jpeg_2mb : Upload.File :=
  {| Upload.name := "lunch.jpg"; Upload.type := "image/jpeg";
     Upload.size := 2 * 1024 * 1024 |}.

Definition file_11mb : Upload.File :=
  {| Upload.name := "scan.png"; Upload.type := "image/png";
     Upload.size := 11 * 1024 * 1024 |}.

Definition text_file : Upload.File :=
  {| Upload.name := "notes.txt"; Upload.type := "text/plain"; Upload.size := 120 |}.

Definition backend : Upload.Env :=
  {| Upload.random_text := "0.25";
     Upload.uploadError := None;
     Upload.getPublicUrl := fun path => "https://store.example/" ++ path;
     Upload.insert_result := inr "receipt-1";
     Upload.invoke_result := inr (Worker.JsonData old_payload) |}.

End Sample.

(** ** More of the worker and of the upload component *)

(** The columns the worker has no business with. *)
Definition identity_columns (r : Receipt)
    : option string * string * string * string :=
  (user_id r, file_url r, file_name r, created_at r).

(** The tables of an invocation: after each update, and at the end. *)
Definition states (w : Worker.World) : list Receipts :=
  (Worker.snapshots w ++ [Worker.table w])%list.

(** Reading a date of the form YYYY-MM-DD back into year, month, day. *)
Definition parse_iso_date (s : string) : option (Z * Z * Z) :=
  match list_ascii_of_string s with
  | [y1; y2; y3; y4; a; m1; m2; b; d1; d2] =>
      match digit_value y1, digit_value y2, digit_value y3, digit_value y4,
            digit_value m1, digit_value m2, digit_value d1, digit_value d2 with
      | Some y1, Some y2, Some y3, Some y4, Some m1, Some m2, Some d1, Some d2 =>
          if is_dash a && is_dash b
          then Some (1000 * y1 + 100 * y2 + 10 * y3 + y4, 10 * m1 + m2, 10 * d1 + d2)
          else None
      | _, _, _, _, _, _, _, _ => None
      end
  | _ => None
  end.

(** [c] occurs in [s]. *)
Definition occurs (c : ascii) (s : string) : Prop := In c (list_ascii_of_string s).

(** The four [useState] cells of [ReceiptUpload] (lines 15-18) and what
    an event of [handleFileUpload] does to them. *)
Record UploadState : Type := {
  uploading : bool;
  processing_flag : bool;
  progress : Z;
  extractedData : option Worker.Body
}.

Definition upload_event (st : UploadState) (e : Upload.Event) : UploadState :=
  match e with
  | Upload.setUploading b =>
      {| uploading := b; processing_flag := processing_flag st;
         progress := progress st; extractedData := extractedData st |}
  | Upload.setProcessing b =>
      {| uploading := uploading st; processing_flag := b;
         progress := progress st; extractedData := extractedData st |}
  | Upload.setProgress n =>
      {| uploading := uploading st; processing_flag := processing_flag st;
         progress := n; extractedData := extractedData st |}
  | Upload.setExtractedData d =>
      {| uploading := uploading st; processing_flag := processing_flag st;
         progress := progress st; extractedData := Some d |}
  | _ => st
  end.

Definition after_upload (st : UploadState) (tr : list Upload.Event) : UploadState :=
  fold_left upload_event tr st.

(** The path [uploadFile] stores a file under (lines 23-25). *)
Definition upload_path (env : Upload.Env) (file : Upload.File) : string :=
  "receipts/" ++ Upload.random_text env ++ "." ++ Upload.last_piece "." (Upload.name file).

(** The two checks of lines 77-96. *)
Definition passes_validation (file : Upload.File) : Prop :=
  Upload.type file ∈ Upload.validTypes /\ Upload.size file <= 10 * 1024 * 1024.

(** How often [onReceiptProcessed] is called. *)
Definition callbacks (tr : list Upload.Event) : nat :=
  length (List.filter
            (fun e => match e with Upload.onReceiptProcessed => true | _ => false end)
            tr).

(** The row that the insert of [createReceiptRecord] (lines 43-51)
    describes: the three columns it names, and no [user_id]. *)
Definition inserted_row (owner : option string) (url fname created : string)
    : Receipt :=
  {| user_id := owner; file_url := url; file_name := fname;
     processing_status := pending; extracted_data := None;
     created_at := created |}.

(** JSON values as the component holds them after parsing. *)
#[warnings="-register-all"] Inductive Json : Type :=
  | JNumber (x : spec_float)
  | JString (s : string)
  | JArray (l : list Json)
  | JObject (fields : list (string * Json)).

(** [v.key] for the keys the component reads ([total], [date],
    [merchant], [items]); [None] is [undefined]. *)
Definition property (key : string) (v : Json) : option Json :=
  match v with
  | JObject fields =>
      snd <$> List.find (fun field => String.eqb (fst field) key) fields
  | _ => None
  end.

Definition item_json (i : Item) : Json :=
  JObject [("name", JString (name i)); ("price", JNumber (price i))].

Definition payload_json (d : ExtractedData) : Json :=
  JObject [("total", JNumber (total d)); ("date", JString (date d));
           ("merchant", JString (merchant d));
           ("items", JArray (item_json <$> items d))].

(** The body of a response of the worker, parsed. *)
Definition body_json (b : Worker.Body) : Json :=
  match b with
  | Worker.Text s => JString s
  | Worker.JsonData d => JObject [("data", payload_json d)]
  | Worker.JsonError message => JObject [("error", JString message)]
  end.

(** What lines 212-224 read off the state: [extractedData.key]. *)
Definition shown (key : string) (st : UploadState) : option Json :=
  extractedData st ≫= fun b => property key (body_json b).

(** ** The rows of [src/lib/supabase.ts] *)

Inductive TransactionType : Type := Income | Expense.

#[global] Instance TransactionType_eq_dec : EqDecision TransactionType.
Proof. solve_decision. Defined.

Module Category.
Record Category : Type := {
  id : string;
  name : string;
  type : TransactionType;
  color : string;
  created_at : string
}.
End Category.

Module Tx.
(** [amount] is a JavaScript number, read as an exact rational;
    [categories] is the joined category row. *)
Record Transaction : Type := {
  id : string;
  user_id : string;
  type : TransactionType;
  amount : Q;
  description : string;
  category_id : string;
  date : string;
  receipt_url : option string;
  created_at : string;
  updated_at : string;
  categories : option Category.Category
}.

Definition is_income (t : Transaction) : bool := bool_decide (type t = Income).
Definition is_expense (t : Transaction) : bool := bool_decide (type t = Expense).

(** [list.reduce((sum, t) => sum + t.amount, 0)]. *)
Definition sum_amounts (l : list Transaction) : Q :=
  fold_left (fun sum t => (sum + amount t)%Q) l 0%Q.
End Tx.

(** [a || b] on strings that may be missing: the empty string counts as
    missing. *)
Definition or_else (a : option string) (b : string) : string :=
  match a with
  | Some s => if String.eqb s "" then b else s
  | None => b
  end.

(** A string as a condition: true unless empty. *)
Definition truthy (s : string) : bool := negb (String.eqb s "").

(** ** The transaction list: [src/components/dashboard/TransactionList.tsx] *)

Module TransactionList.

Record State : Type := {
  transactions : list Tx.Transaction;
  loading : bool;
  startDate : string;
  endDate : string
}.

(** [select_transactions gte lte] is the query of lines 26-45, with the
    [date] bounds it carries. *)
Inductive Event : Type :=
  | setTransactions (l : list Tx.Transaction)
  | setLoading (b : bool)
  | setStartDate (s : string)
  | setEndDate (s : string)
  | toast (t : Upload.Toast)
  | select_transactions (gte lte : option string).

(** What the record store answers to a query: an error, or [data]
    (which may be null). *)
Record Env : Type := {
  query_result : option string -> option string ->
                 string + option (list Tx.Transaction)
}.

Definition fetch_error_toast : Upload.Toast :=
  {| Upload.title := "Error";
     Upload.description := "Failed to fetch transactions";
     Upload.variant := Some "destructive" |}.

(** Lines 23-58.  The function is created by a render and reads the
    [startDate] and [endDate] of that render, [st]. *)
Definition fetchTransactions (st : State) (env : Env) : list Event :=
  let gte := if truthy (startDate st) then Some (startDate st) else None in
  let lte := if truthy (endDate st) then Some (endDate st) else None in
  ([setLoading true; select_transactions gte lte] ++
   match query_result env gte lte with
   | inl _ => [toast fetch_error_toast]
   | inr data => [setTransactions (default [] data)]
   end ++
   [setLoading false])%list.

(** Lines 60-62. *)
Definition handleFilter (st : State) (env : Env) : list Event :=
  fetchTransactions st env.

(** Lines 64-68. *)
Definition clearFilters (st : State) (env : Env) : list Event :=
  ([setStartDate ""; setEndDate ""] ++ fetchTransactions st env)%list.

Definition apply_event (st : State) (e : Event) : State :=
  match e with
  | setTransactions l =>
      {| transactions := l; loading := loading st;
         startDate := startDate st; endDate := endDate st |}
  | setLoading b =>
      {| transactions := transactions st; loading := b;
         startDate := startDate st; endDate := endDate st |}
  | setStartDate s =>
      {| transactions := transactions st; loading := loading st;
         startDate := s; endDate := endDate st |}
  | setEndDate s =>
      {| transactions := transactions st; loading := loading st;
         startDate := startDate st; endDate := s |}
  | _ => st
  end.

(** The state of the next render. *)
Definition after (st : State) (tr : list Event) : State :=
  fold_left apply_event tr st.

Definition queries (tr : list Event) : list Event :=
  List.filter (fun e => match e with select_transactions _ _ => true | _ => false end) tr.

Record Totals : Type := { income : Q; expenses : Q; balance : Q }.

(** Lines 77-87. *)
Definition getTotalsByType (transactions : list Tx.Transaction) : Totals :=
  let income := Tx.sum_amounts (List.filter Tx.is_income transactions) in
  let expenses := Tx.sum_amounts (List.filter Tx.is_expense transactions) in
  {| income := income; expenses := expenses; balance := (income - expenses)%Q |}.

End TransactionList.

(** ** The charts: [FinancialCharts], in [TransactionForm.tsx] from line 173 *)

Module FinancialCharts.

(** A JavaScript [Map] with string keys: the entries in insertion
    order. *)
Definition JsMap (V : Type) : Type := list (string * V).

Fixpoint mget {V} (k : string) (m : JsMap V) : option V :=
  match m with
  | [] => None
  | (k', v) :: m' => if String.eqb k' k then Some v else mget k m'
  end.

Definition mhas {V} (k : string) (m : JsMap V) : bool :=
  match mget k m with Some _ => true | None => false end.

(** [set] keeps the place of a key that is there, and appends a new
    one. *)
Fixpoint mset {V} (k : string) (v : V) (m : JsMap V) : JsMap V :=
  match m with
  | [] => [(k, v)]
  | (k', v') :: m' =>
      if String.eqb k' k then (k', v) :: m' else (k', v') :: mset k v m'
  end.

(** [Array.from(map.values())]. *)
Definition mvalues {V} (m : JsMap V) : list V := map snd m.

Record Slice : Type := { name : string; value : Q; color : string }.

Definition categoryName (t : Tx.Transaction) : string :=
  or_else (Category.name <$> Tx.categories t) "Uncategorized".

Definition categoryColor (t : Tx.Transaction) : string :=
  or_else (Category.color <$> Tx.categories t) "#gray".

(** The body of the [forEach] of lines 218-234. *)
Definition category_step (categoryMap : JsMap Slice) (transaction : Tx.Transaction)
    : JsMap Slice :=
  match mget (categoryName transaction) categoryMap with
  | Some entry =>
      mset (categoryName transaction)
        {| name := name entry;
           value := (value entry + Tx.amount transaction)%Q;
           color := color entry |}
        categoryMap
  | None =>
      mset (categoryName transaction)
        {| name := categoryName transaction;
           value := Tx.amount transaction;
           color := categoryColor transaction |}
        categoryMap
  end.

(** Lines 214-237. *)
Definition getExpensesByCategory (transactions : list Tx.Transaction) : list Slice :=
  let expenses := List.filter Tx.is_expense transactions in
  let categoryMap := fold_left category_step expenses [] in
  mvalues categoryMap.

(** The objects [{ date, income, expenses }] of [getDailyTrends] and
    [{ month, income, expenses }] of [getMonthlyComparison]; [label] is
    the [date], respectively the [month]. *)
Record Trend : Type := { label : string; income : Q; expenses : Q }.

(** The body of the two [forEach] loops (lines 242-255 and 263-276),
    which differ in the key only: make the entry if the key is new,
    then add the amount to its [income] or, for any other type, to its
    [expenses]. *)
Definition add_amount (t : Tx.Transaction) (data : Trend) : Trend :=
  if Tx.is_income t
  then {| label := label data; income := (income data + Tx.amount t)%Q;
          expenses := expenses data |}
  else {| label := label data; income := income data;
          expenses := (expenses data + Tx.amount t)%Q |}.

Definition accumulate (key : Tx.Transaction -> string)
    (m : JsMap Trend) (t : Tx.Transaction) : JsMap Trend :=
  let m1 :=
    if negb (mhas (key t) m)
    then mset (key t) {| label := key t; income := 0; expenses := 0 |} m
    else m in
  match mget (key t) m1 with
  | Some data => mset (key t) (add_amount t data) m1
  | None => m1
  end.

(** [array.sort((a, b) => a.label.localeCompare(b.label))], with
    [localeCompare] taken from the surroundings. *)
Definition label_le (localeCompare : string -> string -> Z) (a b : Trend) : Prop :=
  localeCompare (label a) (label b) <= 0.

#[global] Instance label_le_dec localeCompare a b :
  Decision (label_le localeCompare a b).
Proof. unfold label_le. apply _. Defined.

Definition sort_by_label (localeCompare : string -> string -> Z)
    (l : list Trend) : list Trend :=
  merge_sort (label_le localeCompare) l.

(** Lines 239-258. *)
Definition getDailyTrends (localeCompare : string -> string -> Z)
    (transactions : list Tx.Transaction) : list Trend :=
  sort_by_label localeCompare
    (mvalues (fold_left (accumulate Tx.date) transactions [])).

(** Lines 260-279. *)
Definition getMonthlyComparison (localeCompare : string -> string -> Z)
    (transactions : list Tx.Transaction) : list Trend :=
  sort_by_label localeCompare
    (mvalues (fold_left (accumulate (fun t => substring 0 7 (Tx.date t)))
                transactions [])).

(** What an entry for the key [k] has to hold. *)
Definition bucket (key : Tx.Transaction -> string) (k : string)
    (transactions : list Tx.Transaction) : Trend :=
  let mine := List.filter (fun t => String.eqb (key t) k) transactions in
  {| label := k;
     income := Tx.sum_amounts (List.filter Tx.is_income mine);
     expenses := Tx.sum_amounts (List.filter (fun t => negb (Tx.is_income t)) mine) |}.

(** The slice for the category [k]: its first expense gives the colour
    and the starting value, the later ones are added in order. *)
Definition slice (k : string) (transactions : list Tx.Transaction) : option Slice :=
  match List.filter (fun t => Tx.is_expense t && String.eqb (categoryName t) k)
          transactions with
  | [] => None
  | t :: ts =>
      Some {| name := k;
              value := fold_left (fun sum t => (sum + Tx.amount t)%Q) ts (Tx.amount t);
              color := categoryColor t |}
  end.

End FinancialCharts.

(** ** The form: [src/components/dashboard/TransactionForm.tsx] *)

Module TransactionForm.

Record State : Type := {
  type : TransactionType;
  amount : string;
  description : string;
  categoryId : string;
  date : string;
  categories : list Category.Category;
  loading : bool
}.

(** The body sent to [create-transaction]; [amount] is what
    [parseFloat] made of the text ([None] for NaN). *)
Record Body : Type := {
  body_type : TransactionType;
  body_amount : option Q;
  body_description : string;
  body_category_id : string;
  body_date : string
}.

Inductive Event : Type :=
  | preventDefault
  | setLoading (b : bool)
  | setAmount (s : string)
  | setDescription (s : string)
  | setCategoryId (s : string)
  | setDate (s : string)
  | toast (t : Upload.Toast)
  | onTransactionAdded
  | functions_invoke (fn : string) (body : Body).

(** How [supabase.functions.invoke] ends: it returns [{ data, error }]
    or it throws. *)
Inductive Outcome : Type :=
  | Returned (error : option string)
  | Thrown.

Record Env : Type := {
  parseFloat : string -> option Q;
  invoke_outcome : Outcome;
  now : Z
}.

(** [new Date().toISOString().split('T')[0]], lines 20 and 74. *)
Definition today (env : Env) : string :=
  hd "" (Js.split "T" (Js.toISOString (now env))).

Definition success_toast : Upload.Toast :=
  {| Upload.title := "Success";
     Upload.description := "Transaction added successfully";
     Upload.variant := None |}.

Definition error_toast (message : string) : Upload.Toast :=
  {| Upload.title := "Error";
     Upload.description := message;
     Upload.variant := Some "destructive" |}.

(** Lines 43-87. *)
Definition handleSubmit (st : State) (env : Env) : list Event :=
  ([preventDefault; setLoading true;
    functions_invoke "create-transaction"
      {| body_type := type st;
         body_amount := parseFloat env (amount st);
         body_description := description st;
         body_category_id := categoryId st;
         body_date := date st |}] ++
   match invoke_outcome env with
   | Returned (Some message) => [toast (error_toast message)]
   | Returned None =>
       [toast success_toast; setAmount ""; setDescription "";
        setCategoryId ""; setDate (today env); onTransactionAdded]
   | Thrown => [toast (error_toast "Failed to add transaction")]
   end ++
   [setLoading false])%list.

Definition apply_event (st : State) (e : Event) : State :=
  match e with
  | setLoading b =>
      {| type := type st; amount := amount st; description := description st;
         categoryId := categoryId st; date := date st;
         categories := categories st; loading := b |}
  | setAmount s =>
      {| type := type st; amount := s; description := description st;
         categoryId := categoryId st; date := date st;
         categories := categories st; loading := loading st |}
  | setDescription s =>
      {| type := type st; amount := amount st; description := s;
         categoryId := categoryId st; date := date st;
         categories := categories st; loading := loading st |}
  | setCategoryId s =>
      {| type := type st; amount := amount st; description := description st;
         categoryId := s; date := date st;
         categories := categories st; loading := loading st |}
  | setDate s =>
      {| type := type st; amount := amount st; description := description st;
         categoryId := categoryId st; date := s;
         categories := categories st; loading := loading st |}
  | _ => st
  end.

Definition after (st : State) (tr : list Event) : State :=
  fold_left apply_event tr st.

Definition invocations (tr : list Event) : list Event :=
  List.filter (fun e => match e with functions_invoke _ _ => true | _ => false end) tr.

Definition callbacks (tr : list Event) : nat :=
  length (List.filter
            (fun e => match e with onTransactionAdded => true | _ => false end) tr).

End TransactionForm.

(** A comparison of strings by code points, as one [localeCompare]. *)
Definition codepoint_compare (a b : string) : Z :=
  match String.compare a b with
  | Lt => -1
  | Eq => 0
  | Gt => 1
  end.

(** ** More sample data *)

Module Demo.

(** The record store refuses the lookup. *)
Definition env_lookup_fails : Worker.Env :=
  {| Worker.getUser := Worker.getUser Sample.env;
     Worker.random := Worker.random Sample.env;
     Worker.now := Worker.now Sample.env;
     Worker.update_processing_ok := true;
     Worker.select_ok := false;
     Worker.update_completed_ok := true;
     Worker.update_failed_ok := true;
     Worker.update_error_message := "update failed";
     Worker.json_error_message := "Unexpected end of JSON input" |}.

(** The record store refuses the write of the result. *)
Definition env_write_fails : Worker.Env :=
  {| Worker.getUser := Worker.getUser Sample.env;
     Worker.random := Worker.random Sample.env;
     Worker.now := Worker.now Sample.env;
     Worker.update_processing_ok := true;
     Worker.select_ok := true;
     Worker.update_completed_ok := false;
     Worker.update_failed_ok := true;
     Worker.update_error_message := "update failed";
     Worker.json_error_message := "Unexpected end of JSON input" |}.

(** [Math.random()] answers 0.0007, the Number just below seven
    ten-thousandths. *)
Definition env_seven_cents : Worker.Env :=
  {| Worker.getUser := Worker.getUser Sample.env;
     Worker.random := Double.div (Double.of_Z 7) (Double.of_Z 10000);
     Worker.now := Worker.now Sample.env;
     Worker.update_processing_ok := true;
     Worker.select_ok := true;
     Worker.update_completed_ok := true;
     Worker.update_failed_ok := true;
     Worker.update_error_message := "update failed";
     Worker.json_error_message := "Unexpected end of JSON input" |}.

(** The clock reads the first millisecond of the year 10000. *)
Definition env_year_10000 : Worker.Env :=
  {| Worker.getUser := Worker.getUser Sample.env;
     Worker.random := Worker.random Sample.env;
     Worker.now := 253402300800000;
     Worker.update_processing_ok := true;
     Worker.select_ok := true;
     Worker.update_completed_ok := true;
     Worker.update_failed_ok := true;
     Worker.update_error_message := "update failed";
     Worker.json_error_message := "Unexpected end of JSON input" |}.

(** The pending record of the caller beside a completed one. *)
Definition two_records : Receipts :=
  <["receipt-2" := Sample.receipt completed (Some Sample.old_payload) Sample.url_b]>
    Sample.pending_table.

(** The storage upload fails. *)
Definition backend_upload_fails : Upload.Env :=
  {| Upload.random_text := "0.25";
     Upload.uploadError := Some "Bucket not found";
     Upload.getPublicUrl := Upload.getPublicUrl Sample.backend;
     Upload.insert_result := Upload.insert_result Sample.backend;
     Upload.invoke_result := Upload.invoke_result Sample.backend |}.

(** A record of somebody else. *)
Definition foreign_table : Receipts :=
  {[ "receipt-1" :=
       {| user_id := Some "user-2"; file_url := Sample.url_a;
          file_name := "lunch.jpg"; processing_status := pending;
          extracted_data := None; created_at := "2026-11-03T06:59:00Z" |} ]}.

Definition food : Category.Category :=
  {| Category.id := "c1"; Category.name := "Food & Dining";
     Category.type := Expense; Category.color := "#ef4444";
     Category.created_at := "2026-01-01T00:00:00Z" |}.

Definition tx (ty : TransactionType) (amt : Q) (day : string)
    (cat : option Category.Category) : Tx.Transaction :=
  {| Tx.id := "t"; Tx.user_id := "user-1"; Tx.type := ty; Tx.amount := amt;
     Tx.description := "sample"; Tx.category_id := "c1"; Tx.date := day;
     Tx.receipt_url := None; Tx.created_at := "2026-11-03T06:59:00Z";
     Tx.updated_at := "2026-11-03T06:59:00Z"; Tx.categories := cat |}.

Definition ledger : list Tx.Transaction :=
  [ tx Expense 12.50%Q "2026-11-02" (Some food);
    tx Income 100%Q "2026-10-31" None;
    tx Expense 7.25%Q "2026-11-02" None;
    tx Expense 3%Q "2026-10-31" (Some food) ].

End Demo.

(** * Facts about binary64 arithmetic *)

Module DoubleFacts.
Import Double.

Lemma digits2_pos_bounds p :
  2 ^ (Zpos (digits2_pos p) - 1) <= Zpos p < 2 ^ Zpos (digits2_pos p).
Proof.
  induction p as [p IH|p IH|]; cbn [digits2_pos];
    rewrite ?Pos2Z.inj_succ, ?Z.pow_succ_r by lia.
  - replace (Z.succ (Zpos (digits2_pos p)) - 1) with (Z.succ (Zpos (digits2_pos p) - 1))
      by lia.
    rewrite Z.pow_succ_r by lia. lia.
  - replace (Z.succ (Zpos (digits2_pos p)) - 1) with (Z.succ (Zpos (digits2_pos p) - 1))
      by lia.
    rewrite Z.pow_succ_r by lia. lia.
  - cbn. lia.
Qed.

(** [mrs] is what is left of [X] after [k] bits were shifted out: the
    quotient, and a round bit that is set only when the bits shifted out
    make up half a unit or more. *)
Definition shr_inv (X k : Z) (mrs : shr_record) : Prop :=
  0 <= shr_m mrs
  /\ exists rem, X = shr_m mrs * 2 ^ k + rem
                 /\ 0 <= rem < 2 ^ k
                 /\ (shr_r mrs = true -> 2 ^ k <= 2 * rem).

Lemma shr_1_inv X k mrs : 0 <= k -> shr_inv X k mrs -> shr_inv X (k + 1) (shr_1 mrs).
Proof.
  intros Hk (Hm & rem & HX & Hrem & Hr).
  destruct mrs as [m r s]. cbn [shr_m shr_r] in *.
  assert (Hp : 2 ^ (k + 1) = 2 * 2 ^ k) by (rewrite Z.pow_add_r by lia; lia).
  assert (0 < 2 ^ k) by (apply Z.pow_pos_nonneg; lia).
  unfold shr_inv.
  destruct m as [|[p|p|]|p]; cbn [shr_1 shr_m shr_r]; cbv zeta; cbn [shr_m shr_r];
    try lia; rewrite Hp.
  - split; [lia|]. exists rem. repeat split; try lia; try discriminate.
  - split; [lia|]. exists (2 ^ k + rem). repeat split; lia.
  - split; [lia|]. exists rem. repeat split; try lia; try discriminate.
  - split; [lia|]. exists (2 ^ k + rem). repeat split; lia.
Qed.

Lemma iter_shr_1_inv X p : forall k mrs,
  0 <= k -> shr_inv X k mrs -> shr_inv X (k + Zpos p) (SpecFloat.iter_pos shr_1 p mrs).
Proof.
  induction p as [p IH|p IH|]; intros k mrs Hk H; cbn [SpecFloat.iter_pos].
  - replace (k + Zpos p~1) with (k + 1 + Zpos p + Zpos p) by lia.
    apply IH; [lia|]. apply IH; [lia|]. by apply shr_1_inv.
  - replace (k + Zpos p~0) with (k + Zpos p + Zpos p) by lia.
    apply IH; [lia|]. by apply IH.
  - by apply shr_1_inv.
Qed.

Lemma shr_inv_start X : 0 <= X -> shr_inv X 0 (shr_record_of_loc X loc_Exact).
Proof.
  intros HX. split; [exact HX|]. exists 0. cbn. repeat split; try lia; try discriminate.
Qed.

Lemma shr_spec X e n :
  0 <= X ->
  exists mrs, shr (shr_record_of_loc X loc_Exact) e n = (mrs, e + Z.max 0 n)
              /\ shr_inv X (Z.max 0 n) mrs.
Proof.
  intros HX. pose proof (shr_inv_start X HX) as H0.
  destruct n as [|p|p]; cbn [shr].
  - eexists. split; [f_equal; lia|]. exact H0.
  - eexists. split; [f_equal; lia|].
    replace (Z.max 0 (Zpos p)) with (0 + Zpos p) by lia.
    apply iter_shr_1_inv; [lia|exact H0].
  - eexists. split; [f_equal; lia|]. exact H0.
Qed.

Lemma round_nearest_even_upper X k mrs :
  0 <= k -> shr_inv X k mrs ->
  0 <= round_nearest_even (shr_m mrs) (loc_of_shr_record mrs)
  /\ 2 * round_nearest_even (shr_m mrs) (loc_of_shr_record mrs) * 2 ^ k
     <= 2 * X + 2 ^ k.
Proof.
  intros Hk (Hm & rem & HX & Hrem & Hr).
  destruct mrs as [m r s]. cbn [shr_m shr_r] in *.
  assert (0 < 2 ^ k) by (apply Z.pow_pos_nonneg; lia).
  destruct r, s; cbn [loc_of_shr_record round_nearest_even];
    try destruct (Z.even m); try specialize (Hr eq_refl); split; nia.
Qed.

(** Rounding a positive [M * 2^E] to nearest: the result is at most half
    a unit of the first shift above it. *)
Lemma binary_round_aux_upper (M : positive) (E : Z) :
  let N1 := Z.max 0 (fexp prec emax (Zdigits2 (Zpos M) + E) - E) in
  exists m e,
    0 <= m /\ E <= e
    /\ 2 * m * 2 ^ (e - E) <= 2 * Zpos M + 2 ^ N1
    /\ binary_round_aux prec emax false (Zpos M) E loc_Exact
       = match m with
         | Z0 => S754_zero false
         | Zpos p => if e <=? emax - prec then S754_finite false p e
                     else S754_infinity false
         | Zneg _ => S754_nan
         end.
Proof.
  intros N1. unfold binary_round_aux, shr_fexp.
  assert (HN1 : 0 <= N1) by (unfold N1; lia).
  destruct (shr_spec (Zpos M) E (fexp prec emax (Zdigits2 (Zpos M) + E) - E))
    as (mrs1 & -> & H1); [lia|].
  fold N1 in H1 |- *.
  destruct (round_nearest_even_upper _ _ _ HN1 H1) as [Hm2 Hup].
  set (m2 := round_nearest_even (shr_m mrs1) (loc_of_shr_record mrs1)) in *.
  set (n2 := fexp prec emax (Zdigits2 m2 + (E + N1)) - (E + N1)).
  destruct (shr_spec m2 (E + N1) n2 Hm2) as (mrs2 & -> & (Hm & rem & HX & Hrem & _)).
  exists (shr_m mrs2), (E + N1 + Z.max 0 n2).
  split; [exact Hm|]. split; [lia|]. split; [|reflexivity].
  replace (E + N1 + Z.max 0 n2 - E) with (Z.max 0 n2 + N1) by lia.
  rewrite Z.pow_add_r by lia.
  assert (0 < 2 ^ N1) by (apply Z.pow_pos_nonneg; lia).
  assert (0 < 2 ^ Z.max 0 n2) by (apply Z.pow_pos_nonneg; lia).
  nia.
Qed.

Lemma of_Z_10000 : of_Z 10000 = S754_finite false 5497558138880000 (-39).
Proof. vm_compute. reflexivity. Qed.

Lemma unit_interval_finite m e :
  unit_interval (S754_finite false m e) = true ->
  -1074 <= e <= -52 /\ Zpos m < 2 ^ 53 /\ Zpos m < 2 ^ (- e).
Proof.
  cbn [unit_interval]. intros H. apply andb_prop in H as [Hb Hlt].
  unfold bounded, canonical_mantissa, fexp, emin, prec, emax in Hb.
  apply andb_prop in Hb as [Hc _]. apply Z.eqb_eq in Hc.
  pose proof (digits2_pos_bounds m) as [_ Hd].
  assert (Hd53 : Zpos (digits2_pos m) <= 53) by lia.
  assert (Hm : Zpos m < 2 ^ 53).
  { eapply Z.lt_le_trans; [exact Hd|]. apply Z.pow_le_mono_r; lia. }
  assert (He : e < -52 \/ (e = -52 /\ Zpos m < 2 ^ 52)).
  { unfold SFltb, SFcompare in Hlt.
    change (of_Z 1) with (S754_finite false 4503599627370496 (-52)) in Hlt.
    cbv iota beta in Hlt.
    destruct (Z.compare_spec e (-52)) as [->| |]; [right|left; assumption|discriminate].
    split; [reflexivity|].
    rewrite Pos.compare_cont_spec in Hlt.
    destruct (Pos.compare_spec m 4503599627370496) as [| Hlt'|];
      cbn [Pos.switch_Eq] in Hlt; try discriminate Hlt.
    apply Pos2Z.pos_lt_pos in Hlt'. exact Hlt'. }
  split; [lia|]. split; [exact Hm|].
  destruct He as [He|[-> He]]; [|exact He].
  eapply Z.lt_le_trans; [exact Hm|]. apply Z.pow_le_mono_r; lia.
Qed.

(** [Math.floor(Math.random() * 10000)] is a whole number from 0 to
    9999. *)
Lemma floor_mul_10000 x :
  unit_interval x = true ->
  exists k, 0 <= k <= 9999 /\ floor (mul x (of_Z 10000)) = of_Z k.
Proof.
  intros Hx. rewrite of_Z_10000.
  destruct x as [[|]|[|]| |[|] m e]; try discriminate.
  { exists 0. split; [lia|]. reflexivity. }
  destruct (unit_interval_finite m e Hx) as (He & Hm53 & Hm).
  unfold mul, SFmul. cbn [xorb].
  set (c := 5497558138880000%positive).
  destruct (binary_round_aux_upper (m * c) (e + -39)) as (m' & e' & Hm' & He' & Hup & ->).
  set (N1 := Z.max 0 _) in Hup.
  assert (HN1 : N1 <= 53).
  { unfold N1, fexp, emin, prec, emax. cbn [Zdigits2].
    pose proof (digits2_pos_bounds (m * c)) as [Hd _].
    assert (Zpos (m * c) < 2 ^ 106).
    { rewrite Pos2Z.inj_mul. change (2 ^ 106) with (2 ^ 53 * 2 ^ 53).
      change (Zpos c) with 5497558138880000. change (2 ^ 53) with 9007199254740992 in *.
      nia. }
    assert (Zpos (digits2_pos (m * c)) - 1 < 106).
    { apply (Z.pow_lt_mono_r_iff 2); lia. }
    lia. }
  assert (HN1' : 2 ^ N1 <= 2 ^ 53) by (apply Z.pow_le_mono_r; lia).
  change (2 ^ 53) with 9007199254740992 in *.
  rewrite Pos2Z.inj_mul in Hup.
  change (Zpos c) with (10000 * 2 ^ 39) in Hup.
  (* m' * 2^(e' - E) < 10000 * 2^(-E) *)
  assert (Hpow : 2 ^ (- (e + -39)) = 2 ^ 39 * 2 ^ (- e)).
  { replace (- (e + -39)) with (39 + - e) by lia. apply Z.pow_add_r; lia. }
  assert (Hlt : m' * 2 ^ (e' - (e + -39)) < 10000 * 2 ^ (- (e + -39))).
  { rewrite Hpow. change (2 ^ 39) with 549755813888 in *.
    assert (0 < 2 ^ (- e)) by (apply Z.pow_pos_nonneg; lia).
    nia. }
  assert (Hpos : 0 < 2 ^ (e' - (e + -39))) by (apply Z.pow_pos_nonneg; lia).
  destruct m' as [|p|p]; [|clear Hm'|lia].
  { exists 0. split; [lia|]. reflexivity. }
  assert (He14 : e' < 14).
  { assert (2 ^ (e' - (e + -39)) < 2 ^ (14 + - (e + -39))).
    { rewrite (Z.pow_add_r 2 14) by lia. change (2 ^ 14) with 16384.
      assert (0 < 2 ^ (- (e + -39))) by (apply Z.pow_pos_nonneg; lia).
      nia. }
    apply Z.pow_lt_mono_r_iff in H; lia. }
  replace (e' <=? emax - prec) with true
    by (symmetry; apply Z.leb_le; unfold emax, prec; lia).
  cbn [floor cond_Zopp].
  exists (Z.shiftl (Zpos p) e'). split; [|reflexivity].
  destruct (Z.le_gt_cases 0 e') as [Hge|Hneg].
  - rewrite Z.shiftl_mul_pow2 by lia.
    assert (2 ^ (e' - (e + -39)) = 2 ^ e' * 2 ^ (- (e + -39))).
    { replace (e' - (e + -39)) with (e' + - (e + -39)) by lia. apply Z.pow_add_r; lia. }
    assert (0 < 2 ^ e') by (apply Z.pow_pos_nonneg; lia).
    assert (0 < 2 ^ (- (e + -39))) by (apply Z.pow_pos_nonneg; lia).
    nia.
  - rewrite Z.shiftl_div_pow2 by lia.
    assert (2 ^ (- (e + -39)) = 2 ^ (- e') * 2 ^ (e' - (e + -39))).
    { replace (- (e + -39)) with (- e' + (e' - (e + -39))) by lia. apply Z.pow_add_r; lia. }
    assert (0 < 2 ^ (- e')) by (apply Z.pow_pos_nonneg; lia).
    assert (Zpos p < 10000 * 2 ^ (- e')) by nia.
    split; [apply Z.div_pos; lia|].
    assert (Zpos p / 2 ^ (- e') < 10000); [|lia].
    apply Z.div_lt_upper_bound; lia.
Qed.


(** Rounding keeps the sign. *)
Lemma shr_1_nonneg mrs : 0 <= shr_m mrs -> 0 <= shr_m (shr_1 mrs).
Proof.
  destruct mrs as [m r s]. cbn [shr_m].
  destruct m as [|[p|p|]|p]; cbn [shr_1 shr_m]; cbv zeta; cbn [shr_m]; lia.
Qed.

Lemma iter_shr_1_nonneg p : forall mrs,
  0 <= shr_m mrs -> 0 <= shr_m (SpecFloat.iter_pos shr_1 p mrs).
Proof.
  induction p as [p IH|p IH|]; intros mrs H; cbn [SpecFloat.iter_pos];
    auto using shr_1_nonneg.
Qed.

Lemma shr_fexp_nonneg m e l :
  0 <= m -> 0 <= shr_m (fst (shr_fexp prec emax m e l)).
Proof.
  intros Hm. unfold shr_fexp, shr.
  assert (H0 : 0 <= shr_m (shr_record_of_loc m l)) by (by destruct l as [|[]]).
  destruct (_ - e) as [|p|p]; cbn [fst]; auto using iter_shr_1_nonneg.
Qed.

Lemma round_nearest_even_nonneg m l : 0 <= m -> 0 <= round_nearest_even m l.
Proof.
  intros Hm. destruct l as [|[]]; cbn [round_nearest_even];
    try destruct (Z.even m); lia.
Qed.

Lemma binary_round_aux_positive_sign mx ex lx :
  0 <= mx -> positive_sign (binary_round_aux prec emax false mx ex lx) = true.
Proof.
  intros Hm. unfold binary_round_aux.
  pose proof (shr_fexp_nonneg mx ex lx Hm) as H1.
  destruct (shr_fexp prec emax mx ex lx) as [mrs1 e1]. cbn [fst] in H1.
  pose proof (shr_fexp_nonneg _ e1 loc_Exact
                (round_nearest_even_nonneg _ (loc_of_shr_record mrs1) H1)) as H2.
  destruct (shr_fexp prec emax _ e1 loc_Exact) as [mrs2 e2]. cbn [fst] in H2.
  destruct (shr_m mrs2) as [|p|p]; [reflexivity| |lia].
  by destruct (e2 <=? emax - prec).
Qed.

Lemma positive_sign_nonneg x : positive_sign x = true -> nonneg x = true.
Proof. by destruct x as [[|]|[|]| |[|] m e]. Qed.

Lemma of_Z_positive_sign k : 0 <= k -> positive_sign (of_Z k) = true.
Proof.
  intros Hk. destruct k as [|p|p]; [reflexivity| |lia].
  unfold of_Z, binary_normalize, binary_round.
  destruct (shl_align _ _ _) as [mz ez].
  apply binary_round_aux_positive_sign. lia.
Qed.

Lemma div_positive_sign x my ey :
  positive_sign x = true ->
  positive_sign (div x (S754_finite false my ey)) = true.
Proof.
  destruct x as [[|]|[|]| |[|] mx ex]; try discriminate; intros _; try reflexivity.
  unfold div, SFdiv, SFdiv_core_binary. cbn [xorb].
  set (m' := match _ - _ - _ with Z0 => _ | Zpos _ => _ | Zneg _ => _ end).
  assert (Hm' : 0 <= m').
  { subst m'. destruct (_ - _ - _); [lia| |lia]. apply Z.shiftl_nonneg. lia. }
  pose proof (Z_div_pos m' (Zpos my) ltac:(lia) Hm') as Hq.
  unfold Z.div in Hq.
  destruct (Z.div_eucl m' (Zpos my)) as [q r]. 
  by apply binary_round_aux_positive_sign.
Qed.

Lemma cents_nonneg k : 0 <= k -> nonneg (cents k) = true.
Proof.
  intros Hk. apply positive_sign_nonneg. unfold cents.
  change (of_Z 100) with (S754_finite false 7036874417766400 (-46)).
  apply div_positive_sign, of_Z_positive_sign, Hk.
Qed.

(** The Numbers of the literals [15.99] and [23.50], and of [0.07]. *)
Example cents_1599 : cents 1599 = S754_finite false 9001569755206779 (-49).
Proof. vm_compute. reflexivity. Qed.

Example cents_2350 : cents 2350 = S754_finite false 6614661952700416 (-48).
Proof. vm_compute. reflexivity. Qed.

Example cents_7 : cents 7 = S754_finite false 5044031582654956 (-56).
Proof. vm_compute. reflexivity. Qed.

End DoubleFacts.

(** * Facts about the date functions *)

Module JsFacts.
Import Js.

Example toISOString_epoch : toISOString 0 = "1970-01-01T00:00:00.000Z".
Proof. vm_compute. reflexivity. Qed.

Example toISOString_before_epoch : toISOString (-1) = "1969-12-31T23:59:59.999Z".
Proof. vm_compute. reflexivity. Qed.

Example toISOString_leap_day :
  toISOString 951782400000 = "2000-02-29T00:00:00.000Z".
Proof. vm_compute. reflexivity. Qed.

Example toISOString_year_0 :
  toISOString (-62167219200000) = "0000-01-01T00:00:00.000Z".
Proof. vm_compute. reflexivity. Qed.

(** Outside the years 0000 to 9999 the year is written in the expanded
    form. *)
Example toISOString_year_10000 :
  toISOString 253402300800000 = "+010000-01-01T00:00:00.000Z".
Proof. vm_compute. reflexivity. Qed.

Example split_date_time :
  split "T" "2026-11-03T07:00:00.123Z" = ["2026-11-03"; "07:00:00.123Z"].
Proof. vm_compute. reflexivity. Qed.

Ltac divlia := Z.div_mod_to_equations; lia.

Lemma InLeapYear_spec y :
  InLeapYear y = true <-> (y mod 4 = 0 /\ y mod 100 <> 0) \/ y mod 400 = 0.
Proof.
  unfold InLeapYear.
  rewrite orb_true_iff, andb_true_iff, negb_true_iff, !Z.eqb_eq, Z.eqb_neq.
  reflexivity.
Qed.

Lemma InLeapYear_false y :
  InLeapYear y = false <-> ~ ((y mod 4 = 0 /\ y mod 100 <> 0) \/ y mod 400 = 0).
Proof. rewrite <- InLeapYear_spec. destruct (InLeapYear y); intuition congruence. Qed.

Lemma mp_range doe : 0 <= doe < 146097 -> 0 <= mp_of doe <= 11.
Proof. unfold mp_of, doy_of, yoe_of. intros. divlia. Qed.

Lemma days_of_months_eq y n :
  (n <= 11)%nat ->
  days_of_months y n
  = nth n days_before_month 0
    + (if (2 <=? n)%nat then (if InLeapYear y then 1 else 0) else 0).
Proof.
  intros Hn.
  do 12 (destruct n as [|n];
         [cbn [days_of_months]; unfold DaysInMonth;
          destruct (InLeapYear y); reflexivity|]).
  lia.
Qed.

(** One month of the March-based year: name the month and the year,
    unfold the calendar, and leave linear arithmetic. *)
Ltac month_case doe Hc :=
  match type of Hc with
  | mp_of doe = ?k =>
      let K := eval vm_compute in (if k <? 10 then k + 3 else k - 9) in
      let C := eval vm_compute in (if K <=? 2 then 1 else 0) in
      let n := eval vm_compute in (Z.to_nat (K - 1)) in
      let Hm := fresh "Hm" in
      let Hy := fresh "Hy" in
      let Hleap := fresh "Hleap" in
      assert (Hm : month_of_doe doe = K)
        by (unfold month_of_doe; rewrite Hc; reflexivity);
      assert (Hy : year_of_doe doe = yoe_of doe + C)
        by (unfold year_of_doe; rewrite Hm; reflexivity);
      unfold MakeDay; rewrite Hm, Hy;
      change (Z.to_nat (K - 1)) with n;
      rewrite (days_of_months_eq (yoe_of doe + C) n) by (cbv; lia);
      unfold DaysInMonth, date_of_doe, DayFromYear; rewrite Hc;
      cbv [Z.eqb Pos.eqb orb nth days_before_month Nat.leb];
      (destruct (InLeapYear (yoe_of doe + C)) eqn:Hleap;
       [apply InLeapYear_spec in Hleap | apply InLeapYear_false in Hleap]);
      revert Hc Hleap; unfold mp_of, doy_of, yoe_of; intros Hc Hleap;
      divlia
  end.

(** The conversion on one era: a month of the year, a day of that
    month, the year the day falls in, and [MakeDay] leading back. *)
Lemma civil_of_doe doe :
  0 <= doe < 146097 ->
  1 <= month_of_doe doe <= 12
  /\ 1 <= date_of_doe doe <= DaysInMonth (year_of_doe doe) (month_of_doe doe)
  /\ 0 <= year_of_doe doe <= 400
  /\ (doe <= 146036 -> year_of_doe doe <= 399)
  /\ (146037 <= doe -> year_of_doe doe = 400)
  /\ MakeDay (year_of_doe doe) (month_of_doe doe) (date_of_doe doe)
     = doe - 719468.
Proof.
  intros Hd. pose proof (mp_range doe Hd) as Hmp.
  assert (Hcases : mp_of doe = 0 \/ mp_of doe = 1 \/ mp_of doe = 2
    \/ mp_of doe = 3 \/ mp_of doe = 4 \/ mp_of doe = 5 \/ mp_of doe = 6
    \/ mp_of doe = 7 \/ mp_of doe = 8 \/ mp_of doe = 9 \/ mp_of doe = 10
    \/ mp_of doe = 11) by lia.
  repeat (destruct Hcases as [Hc|Hcases]; [month_case doe Hc|]).
  month_case doe Hcases.
Qed.

Lemma doe_range z : 0 <= doe_of z < 146097.
Proof. unfold doe_of. apply Z.mod_pos_bound. lia. Qed.

Lemma era_split z : z + 719468 = era_of z * 146097 + doe_of z.
Proof. unfold era_of, doe_of. divlia. Qed.

(** The calendar repeats every 400 years. *)
Lemma InLeapYear_era e y : InLeapYear (e * 400 + y) = InLeapYear y.
Proof.
  unfold InLeapYear.
  replace ((e * 400 + y) mod 4) with (y mod 4) by divlia.
  replace ((e * 400 + y) mod 100) with (y mod 100) by divlia.
  replace ((e * 400 + y) mod 400) with (y mod 400) by divlia.
  reflexivity.
Qed.

Lemma DaysInMonth_era e y m : DaysInMonth (e * 400 + y) m = DaysInMonth y m.
Proof. unfold DaysInMonth. rewrite InLeapYear_era. reflexivity. Qed.

Lemma days_of_months_era e y n :
  days_of_months (e * 400 + y) n = days_of_months y n.
Proof.
  induction n as [|n IH]; [reflexivity|].
  cbn [days_of_months]. rewrite IH, DaysInMonth_era. reflexivity.
Qed.

Lemma DayFromYear_era e y : DayFromYear (e * 400 + y) = e * 146097 + DayFromYear y.
Proof. unfold DayFromYear. divlia. Qed.

Lemma MakeDay_era e y m d : MakeDay (e * 400 + y) m d = e * 146097 + MakeDay y m d.
Proof. unfold MakeDay. rewrite DayFromYear_era, days_of_months_era. lia. Qed.

(** Every day number is a calendar date, and [MakeDay] of that date is
    the day number again. *)
Lemma date_of_day_valid z :
  1 <= MonthFromDay z <= 12
  /\ 1 <= DateFromDay z <= DaysInMonth (YearFromDay z) (MonthFromDay z).
Proof.
  unfold MonthFromDay, DateFromDay, YearFromDay.
  rewrite DaysInMonth_era.
  destruct (civil_of_doe (doe_of z) (doe_range z)) as (Hm & Hdd & _).
  split; assumption.
Qed.

Lemma MakeDay_of_day z :
  MakeDay (YearFromDay z) (MonthFromDay z) (DateFromDay z) = z.
Proof.
  unfold MonthFromDay, DateFromDay, YearFromDay.
  rewrite MakeDay_era.
  destruct (civil_of_doe (doe_of z) (doe_range z)) as (_ & _ & _ & _ & _ & Hmk).
  rewrite Hmk. pose proof (era_split z). lia.
Qed.

(** The clock readings of the years 0000 to 9999. *)
Lemma year_of_four_digit_year t :
  four_digit_year t -> 0 <= YearFromDay (Day t) <= 9999.
Proof.
  unfold four_digit_year, YearFromDay. intros Ht.
  set (z := Day t).
  assert (Hz : -719528 <= z <= 2932896) by (unfold z, Day, msPerDay; divlia).
  pose proof (era_split z) as Hsplit.
  pose proof (doe_range z) as Hdoe.
  destruct (civil_of_doe (doe_of z) Hdoe) as (_ & _ & Hy & Hlo & Hhi & _).
  assert (He : -1 <= era_of z <= 24) by lia.
  assert (Hcase : era_of z = -1 \/ (0 <= era_of z <= 23) \/ era_of z = 24) by lia.
  destruct Hcase as [E|[E|E]]; lia.
Qed.

(** Digits print and read back. *)
Lemma digit_cases k :
  k mod 10 = 0 \/ k mod 10 = 1 \/ k mod 10 = 2 \/ k mod 10 = 3 \/ k mod 10 = 4
  \/ k mod 10 = 5 \/ k mod 10 = 6 \/ k mod 10 = 7 \/ k mod 10 = 8 \/ k mod 10 = 9.
Proof. pose proof (Z.mod_pos_bound k 10). lia. Qed.

Lemma digit_value_digit k : digit_value (digit k) = Some (k mod 10).
Proof.
  unfold digit.
  destruct (digit_cases k) as [E|[E|[E|[E|[E|[E|[E|[E|[E|E]]]]]]]]];
    rewrite E; reflexivity.
Qed.

Lemma digit_not_sep k : Ascii.eqb (digit k) "T" = false.
Proof.
  unfold digit.
  destruct (digit_cases k) as [E|[E|[E|[E|[E|[E|[E|[E|[E|E]]]]]]]]];
    rewrite E; reflexivity.
Qed.

Lemma first_piece sep c s :
  hd "" (split sep (String c s))
  = if Ascii.eqb c sep then "" else String c (hd "" (split sep s)).
Proof.
  cbn [split]. destruct (Ascii.eqb c sep); [reflexivity|].
  destruct (split sep s); reflexivity.
Qed.

Lemma date_text_is_iso_date y m d :
  0 <= y <= 9999 -> 1 <= m <= 12 -> 1 <= d <= DaysInMonth y m ->
  is_iso_date (date_text y m d) = true.
Proof.
  intros Hy Hm Hd.
  assert (Hd31 : d <= 31).
  { revert Hd. unfold DaysInMonth.
    repeat match goal with |- context [if ?b then _ else _] => destruct b end; lia. }
  unfold is_iso_date, date_text. cbv [pad append list_ascii_of_string].
  rewrite !digit_value_digit.
  replace (1000 * (y / 10 / 10 / 10 mod 10) + 100 * (y / 10 / 10 mod 10)
           + 10 * (y / 10 mod 10) + y mod 10) with y by divlia.
  replace (10 * (m / 10 mod 10) + m mod 10) with m by divlia.
  replace (10 * (d / 10 mod 10) + d mod 10) with d by divlia.
  change (is_dash "-") with true. cbn [andb].
  repeat (apply andb_true_iff; split); apply Z.leb_le; lia.
Qed.

Lemma toISOString_date t :
  four_digit_year t ->
  hd "" (split "T" (toISOString t))
  = date_text (YearFromDay (Day t)) (MonthFromDay (Day t)) (DateFromDay (Day t)).
Proof.
  intros Ht. pose proof (year_of_four_digit_year t Ht) as Hy.
  unfold toISOString, date_text, year_string.
  replace ((0 <=? YearFromDay (Day t)) && (YearFromDay (Day t) <=? 9999))
    with true
    by (symmetry; apply andb_true_iff; split; apply Z.leb_le; lia).
  cbv [pad append].
  rewrite !first_piece, !digit_not_sep.
  reflexivity.
Qed.

(** The date the worker puts in the payload is a calendar date. *)
Lemma split_toISOString_is_iso_date t :
  four_digit_year t ->
  is_iso_date (hd "" (split "T" (toISOString t))) = true.
Proof.
  intros Ht. rewrite toISOString_date by exact Ht.
  destruct (date_of_day_valid (Day t)) as [Hm Hd].
  apply date_text_is_iso_date;
    [apply year_of_four_digit_year; exact Ht | exact Hm | exact Hd].
Qed.

End JsFacts.

(** * Facts about the record store *)

Lemma lookup_db_update uid rid p (db : Receipts) k :
  db_update uid rid p db !! k
  = if decide (k = rid)
    then (fun r => if owned_by uid r then apply_patch p r else r) <$> db !! k
    else db !! k.
Proof.
  unfold db_update.
  destruct (decide (k = rid)) as [->|Hne];
    destruct (db !! rid) as [r|] eqn:E; cbn;
    try destruct (owned_by uid r); by simplify_map_eq.
Qed.


Lemma db_update_owned uid rid p (db : Receipts) r :
  db !! rid = Some r -> owned_by uid r = true ->
  db_update uid rid p db = <[rid := apply_patch p r]> db.
Proof. unfold db_update. by intros -> ->. Qed.

Lemma db_select_owned uid rid (db : Receipts) r :
  db !! rid = Some r -> owned_by uid r = true ->
  db_select_file_url uid rid db = Some (file_url r).
Proof. unfold db_select_file_url. by intros -> ->. Qed.

Lemma owned_by_true uid r : user_id r = Some uid -> owned_by uid r = true.
Proof. intros H. unfold owned_by. by rewrite bool_decide_eq_true. Qed.

(** An update changes neither the keys nor the owners, so it does not
    change which rows later updates and selects reach. *)
Lemma hits_db_update uid rid k uid' rid' p (db : Receipts) :
  hits uid rid k (db_update uid' rid' p db) = hits uid rid k db.
Proof.
  unfold hits. rewrite lookup_db_update.
  destruct (decide (k = rid')), (db !! k) as [r|]; cbn; try done.
  by destruct (owned_by uid' r).
Qed.

Lemma status_of_Some k (db : Receipts) r :
  db !! k = Some r -> status_of k db = Some (processing_status r).
Proof. unfold status_of. by intros ->. Qed.

Lemma status_of_db_update uid rid p (db : Receipts) k :
  status_of k (db_update uid rid p db)
  = if hits uid rid k db
    then Some (default (default pending (status_of k db)) (set_processing_status p))
    else status_of k db.
Proof.
  unfold status_of, hits. rewrite lookup_db_update.
  destruct (decide (k = rid)) as [->|Hne].
  - rewrite bool_decide_eq_true_2 by done.
    destruct (db !! rid) as [r|]; cbn; [|done]. by destruct (owned_by uid r).
  - by rewrite bool_decide_eq_false_2.
Qed.

Lemma payload_of_db_update uid rid p (db : Receipts) k :
  payload_of k (db_update uid rid p db)
  = if hits uid rid k db
    then match set_extracted_data p with
         | Some d => Some d
         | None => payload_of k db
         end
    else payload_of k db.
Proof.
  unfold payload_of, hits. rewrite lookup_db_update.
  destruct (decide (k = rid)) as [->|Hne].
  - rewrite bool_decide_eq_true_2 by done.
    destruct (db !! rid) as [r|]; cbn; [|done]. by destruct (owned_by uid r).
  - by rewrite bool_decide_eq_false_2.
Qed.

Lemma db_select_after_update uid rid uid' rid' p (db : Receipts) :
  is_Some (db_select_file_url uid rid (db_update uid' rid' p db))
  <-> is_Some (db_select_file_url uid rid db).
Proof.
  unfold db_select_file_url. rewrite lookup_db_update.
  destruct (decide (rid = rid')), (db !! rid) as [r|]; cbn; try done.
  destruct (owned_by uid' r); cbn; [|done].
  change (owned_by uid (apply_patch p r)) with (owned_by uid r).
  by destruct (owned_by uid r).
Qed.

Lemma db_select_hits uid rid (db : Receipts) :
  is_Some (db_select_file_url uid rid db) <-> hits uid rid rid db = true.
Proof.
  unfold db_select_file_url, hits. rewrite bool_decide_eq_true_2 by done.
  destruct (db !! rid) as [r|]; cbn; [destruct (owned_by uid r)|];
    split; intros H; first [done | by destruct H].
Qed.

(** The [file_url] column plays no part in an update. *)
Lemma without_file_url_db_update uid rid p (db : Receipts) :
  without_file_url <$> db_update uid rid p db
  = db_update uid rid p (without_file_url <$> db).
Proof.
  apply map_eq. intros k.
  rewrite lookup_fmap, !lookup_db_update, lookup_fmap.
  destruct (decide (k = rid)); [|done].
  destruct (db !! k) as [r|]; cbn; [|done].
  change (owned_by uid (without_file_url r)) with (owned_by uid r).
  by destruct (owned_by uid r).
Qed.

Lemma same_but_file_url_update uid rid p (db1 db2 : Receipts) :
  same_but_file_url db1 db2 ->
  same_but_file_url (db_update uid rid p db1) (db_update uid rid p db2).
Proof.
  unfold same_but_file_url. intros H. rewrite !without_file_url_db_update.
  by rewrite H.
Qed.

Lemma same_but_file_url_select uid rid (db1 db2 : Receipts) :
  same_but_file_url db1 db2 ->
  is_Some (db_select_file_url uid rid db1)
  <-> is_Some (db_select_file_url uid rid db2).
Proof.
  unfold same_but_file_url, db_select_file_url. intros H.
  assert (Hk : without_file_url <$> db1 !! rid = without_file_url <$> db2 !! rid)
    by (rewrite <- !lookup_fmap; by rewrite H).
  destruct (db1 !! rid) as [r1|], (db2 !! rid) as [r2|]; cbn in Hk; try done.
  assert (Hw : without_file_url r1 = without_file_url r2) by congruence.
  assert (Ho : owned_by uid r1 = owned_by uid r2).
  { change (owned_by uid (without_file_url r1) = owned_by uid (without_file_url r2)).
    by rewrite Hw. }
  rewrite Ho. by destruct (owned_by uid r2).
Qed.



(** * Facts about the Extraction Worker *)

Module WorkerFacts.
Import Worker.

Example first_extraction :
  fst (invoke Sample.req Sample.env Sample.pending_table)
  = {| status := 200;
       body := JsonData
                 {| total := Double.cents 1234; date := "2026-11-03";
                    merchant := "Sample Store";
                    items := [ {| name := "Item 1"; price := Double.cents 1599 |};
                               {| name := "Item 2"; price := Double.cents 2350 |} ] |} |}.
Proof. vm_compute. reflexivity. Qed.

Ltac split_Forall :=
  repeat match goal with
         | |- Forall _ (_ :: _) => constructor
         | |- Forall _ [] => constructor
         end.

(** The handler, read branch by branch: the response, the calls and the
    tables of each way through it. *)
Lemma invoke_unfold req env (db : Receipts) :
  invoke req env db =
  if String.eqb (method req) "OPTIONS" then
    ({| status := 200; body := Text "ok" |}, fresh db)
  else
    match getUser env (authorization req) with
    | None => ({| status := 401; body := Text "Unauthorized" |}, fresh db)
    | Some uid =>
        match json_body req with
        | None =>
            ({| status := 500; body := JsonError (json_error_message env) |},
             fresh db)
        | Some rid =>
            let u1 := Update uid rid mark_processing in
            let db1 :=
              if update_processing_ok env
              then db_update uid rid mark_processing db else db in
            match (if select_ok env then db_select_file_url uid rid db1
                   else None) with
            | None =>
                ({| status := 404; body := Text "Receipt not found" |},
                 {| table := db1; calls := [u1; Select uid rid];
                    snapshots := [db1] |})
            | Some _ =>
                let p := mockExtractedData env in
                let u2 := Update uid rid (store_result p) in
                if update_completed_ok env then
                  let db2 := db_update uid rid (store_result p) db1 in
                  ({| status := 200; body := JsonData p |},
                   {| table := db2; calls := [u1; Select uid rid; u2];
                      snapshots := [db1; db2] |})
                else
                  let db3 :=
                    if update_failed_ok env
                    then db_update uid rid mark_failed db1 else db1 in
                  ({| status := 400;
                      body := JsonError (update_error_message env) |},
                   {| table := db3;
                      calls := [u1; Select uid rid; u2;
                                Update uid rid mark_failed];
                      snapshots := [db1; db1; db3] |})
            end
        end
    end.
Proof.
  unfold invoke, handler, fresh, mbind, mret, M_bind, M_ret,
    update, select_single, mark_processing, store_result, mark_failed.
  repeat case_match; simplify_eq/=; reflexivity.
Qed.

(** What every update of the worker preserves, every table of an
    invocation has. *)
Lemma invoke_states (P : Receipts -> Prop) req env (db : Receipts) :
  (forall uid rid p s, worker_patch p -> P s -> P (db_update uid rid p s)) ->
  P db ->
  Forall P (snapshots (snd (invoke req env db)))
  /\ P (table (snd (invoke req env db))).
Proof.
  intros Hstep Hdb. rewrite invoke_unfold.
  assert (H1 : worker_patch mark_processing) by (left; reflexivity).
  assert (H2 : forall d, worker_patch (store_result d)) by (right; left; eauto).
  assert (H3 : worker_patch mark_failed) by (right; right; reflexivity).
  destruct (String.eqb _ _); [|destruct (getUser _ _) as [uid|];
    [destruct (json_body req) as [rid|]|]]; cbn zeta.
  2: { destruct (update_processing_ok env), (select_ok env);
       try destruct (db_select_file_url uid rid _);
       try destruct (update_completed_ok env);
       try destruct (update_failed_ok env);
       cbn [fst snd table snapshots];
       split; split_Forall; auto. }
  all: cbn [fst snd fresh table snapshots];
    split; split_Forall; auto.
Qed.


(** Every payload of an invocation is the one built at lines 52-60. *)
Lemma produces_mock req env (db : Receipts) d :
  produces req env db d -> d = mockExtractedData env.
Proof.
  unfold produces. rewrite invoke_unfold.
  destruct (String.eqb _ _); [|destruct (getUser _ _) as [uid|];
    [destruct (json_body req) as [rid|]|]]; cbn zeta.
  2: { destruct (if select_ok env then _ else None);
         [destruct (update_completed_ok env)|];
         cbn [fst snd body calls In];
         intros [H|(u & k & p & Hin & Hp)]; try congruence;
         unfold mark_processing, store_result, mark_failed in Hin;
         intuition (simplify_eq/=; congruence). }
  all: cbn; intros [H|(u & k & p & Hin & Hp)]; try congruence; done.
Qed.

(** The total of line 53 is a whole number of cents from 0 to 9999,
    divided by 100. *)
Lemma mockExtractedData_total env :
  Double.unit_interval (random env) = true ->
  exists k, 0 <= k <= 9999 /\ total (mockExtractedData env) = Double.cents k.
Proof.
  intros H. destruct (DoubleFacts.floor_mul_10000 _ H) as (k & Hk & Heq).
  exists k. split; [exact Hk|]. cbn [total mockExtractedData]. by rewrite Heq.
Qed.

(** Of the answers to a request other than a preflight, only the one
    of line 84 has status 200: the payload wrapped in [{ data: ... }]. *)
Lemma ok_response_is_wrapped req env (db : Receipts) :
  method req <> "OPTIONS" ->
  status (fst (invoke req env db)) = 200 ->
  body (fst (invoke req env db)) = JsonData (mockExtractedData env).
Proof.
  intros Hm. rewrite invoke_unfold. apply String.eqb_neq in Hm. rewrite Hm.
  destruct (getUser _ _) as [uid|]; [destruct (json_body req) as [rid|]|];
    cbn zeta; try (cbn; discriminate).
  destruct (if select_ok env then _ else None);
    [destruct (update_completed_ok env)|]; cbn; try discriminate. reflexivity.
Qed.

End WorkerFacts.

(** * Facts about the Upload Orchestrator *)

Module UploadFacts.
Import Upload.

Example file_extension : last_piece "." "my.receipt.JPG" = "JPG".
Proof. vm_compute. reflexivity. Qed.

Example successful_run_progress :
  progress_values (handleFileUpload Sample.backend (Some [Sample.jpeg_2mb]))
  = [10; 30; 50; 100; 0].
Proof. vm_compute. reflexivity. Qed.

Lemma includes_elem_of l s : includes l s = true <-> s ∈ l.
Proof.
  unfold includes. rewrite existsb_exists. split.
  - intros (x & Hin & Heq). apply String.eqb_eq in Heq. subst x.
    by apply list_elem_of_In.
  - intros Hin. exists s. split; [by apply list_elem_of_In|apply String.eqb_refl].
Qed.

Lemma includes_false l s : includes l s = false <-> s ∉ l.
Proof.
  rewrite <- includes_elem_of. destruct (includes l s); split; congruence.
Qed.

End UploadFacts.

(** * The properties of the specification *)

Import WorkerFacts.






(** C3: when the record exists (and is the caller's), the lookup comes
    back and the store accepts the write, the worker sends exactly one
    update that carries a payload and exactly one that sets completed,
    and they are the same update; the record then is completed with
    that payload, and the response carries the same payload, so the
    total returned is the total stored. *)
Theorem completed_write_is_one_update req env (db : Receipts) uid rid r :
  Worker.method req <> "OPTIONS" ->
  Worker.getUser env (Worker.authorization req) = Some uid ->
  Worker.json_body req = Some rid ->
  db !! rid = Some r ->
  user_id r = Some uid ->
  Worker.select_ok env = true ->
  Worker.update_completed_ok env = true ->
  let p := Worker.mockExtractedData env in
  let w := snd (Worker.invoke req env db) in
  fst (Worker.invoke req env db)
  = {| Worker.status := 200; Worker.body := Worker.JsonData p |}
  /\ List.filter carries_payload (Worker.calls w)
     = [Worker.Update uid rid (store_result p)]
  /\ List.filter sets_completed (Worker.calls w)
     = [Worker.Update uid rid (store_result p)]
  /\ Worker.table w !! rid = Some (apply_patch (store_result p) r)
  /\ status_of rid (Worker.table w) = Some completed
  /\ payload_of rid (Worker.table w) = Some p
  /\ total <$> payload_of rid (Worker.table w) = Some (total p).
Proof.
  intros Hm Hauth Hbody Hr Hown Hsel Hupd p w. subst w.
  pose proof (owned_by_true uid r Hown) as Ho.
  rewrite invoke_unfold.
  apply String.eqb_neq in Hm. rewrite Hm, Hauth, Hbody, Hsel, Hupd. cbn zeta.
  fold p.
  assert (Hlook : (db_update uid rid (store_result p)
            (if Worker.update_processing_ok env
             then db_update uid rid mark_processing db else db)) !! rid
          = Some (apply_patch (store_result p) r)).
  { destruct (Worker.update_processing_ok env).
    - rewrite (db_update_owned uid rid mark_processing db r Hr Ho).
      erewrite db_update_owned; [|apply lookup_insert_eq|exact Ho].
      by rewrite lookup_insert_eq.
    - rewrite (db_update_owned uid rid _ db r Hr Ho). by rewrite lookup_insert_eq. }
  assert (Hsome : is_Some (db_select_file_url uid rid
            (if Worker.update_processing_ok env
             then db_update uid rid mark_processing db else db))).
  { destruct (Worker.update_processing_ok env).
    - rewrite (db_update_owned uid rid mark_processing db r Hr Ho).
      erewrite db_select_owned; [done|apply lookup_insert_eq|exact Ho].
    - by erewrite db_select_owned. }
  destruct Hsome as [url ->]. cbn [fst snd Worker.table Worker.calls].
  unfold status_of, payload_of. rewrite Hlook.
  repeat split.
Qed.

Lemma completed_write_is_one_update_witness :
  let p := Worker.mockExtractedData Sample.env in
  let w := snd (Worker.invoke Sample.req Sample.env Sample.pending_table) in
  fst (Worker.invoke Sample.req Sample.env Sample.pending_table)
  = {| Worker.status := 200; Worker.body := Worker.JsonData p |}
  /\ List.filter carries_payload (Worker.calls w)
     = [Worker.Update "user-1" "receipt-1" (store_result p)]
  /\ status_of "receipt-1" (Worker.table w) = Some completed
  /\ payload_of "receipt-1" (Worker.table w) = Some p.
Proof.
  destruct (completed_write_is_one_update Sample.req Sample.env
              Sample.pending_table "user-1" "receipt-1"
              (Sample.receipt pending None Sample.url_a))
    as (Hresp & Hone & _ & _ & Hst & Hp & _);
    [discriminate | reflexivity | reflexivity | vm_compute; reflexivity
    | reflexivity | reflexivity | reflexivity |].
  cbv zeta. repeat split; assumption.
Defined.

(** C4: a file whose media type is not on the allow-list, or whose size
    exceeds 10 MiB, makes [handleFileUpload] return after one
    destructive toast that names the violated constraint; the run
    contains no network call (no storage upload, no insert, no
    invocation of the worker) and nothing else. *)
Theorem invalid_file_makes_no_network_call env file rest :
  Upload.type file ∉ Upload.validTypes \/ Upload.size file > 10 * 1024 * 1024 ->
  let tr := Upload.handleFileUpload env (Some (file :: rest)) in
  Upload.network_calls tr = []
  /\ (Upload.type file ∉ Upload.validTypes ->
      tr = [Upload.toast Upload.invalid_type_toast])
  /\ (Upload.type file ∈ Upload.validTypes ->
      tr = [Upload.toast Upload.too_large_toast]).
Proof.
  intros Hbad tr. subst tr. unfold Upload.handleFileUpload.
  destruct (Upload.includes Upload.validTypes (Upload.type file)) eqn:Hinc; cbn [negb].
  - apply UploadFacts.includes_elem_of in Hinc.
    destruct Hbad as [Hbad|Hbad]; [done|].
    apply Z.gtb_gt in Hbad. rewrite Hbad. repeat split; done.
  - apply UploadFacts.includes_false in Hinc. repeat split; done.
Qed.

(** An 11 MiB PNG. *)
Lemma invalid_file_makes_no_network_call_witness :
  let tr := Upload.handleFileUpload Sample.backend (Some [Sample.file_11mb]) in
  Upload.network_calls tr = [] /\ tr = [Upload.toast Upload.too_large_toast].
Proof.
  destruct (invalid_file_makes_no_network_call Sample.backend Sample.file_11mb [])
    as (Hnet & _ & Hlarge); [right; cbn; lia|].
  split; [exact Hnet|].
  apply Hlarge. apply UploadFacts.includes_elem_of. reflexivity.
Defined.

(** C5: invoked on a record that is completed with a payload, the worker
    leaves in it, after every write and at the end, either exactly the
    previous payload or exactly the payload it built in this invocation;
    when it answers with a payload for that record the new one is
    stored, and when it answers with anything else the previous one is
    still there. *)
Theorem re_invocation_keeps_payload_whole req env (db : Receipts) rid r p_old :
  db !! rid = Some r ->
  processing_status r = completed ->
  extracted_data r = Some p_old ->
  let p_new := Worker.mockExtractedData env in
  let resp := fst (Worker.invoke req env db) in
  let w := snd (Worker.invoke req env db) in
  Forall (fun s => payload_of rid s = Some p_old \/ payload_of rid s = Some p_new)
    (Worker.snapshots w ++ [Worker.table w])
  /\ (Worker.json_body req = Some rid ->
      Worker.body resp = Worker.JsonData p_new ->
      payload_of rid (Worker.table w) = Some p_new)
  /\ ((forall d, Worker.body resp <> Worker.JsonData d) ->
      payload_of rid (Worker.table w) = Some p_old).
Proof.
  intros Hr Hst Hdata p_new resp w. subst resp w.
  assert (Hold : payload_of rid db = Some p_old)
    by (unfold payload_of; rewrite Hr; exact Hdata).
  rewrite invoke_unfold.
  destruct (String.eqb _ _); [|destruct (Worker.getUser _ _) as [uid|];
    [destruct (Worker.json_body req) as [rid'|]|]];
    cbn zeta; fold p_new; clearbody p_new.
  2: { set (db1 := if Worker.update_processing_ok env then _ else db).
       assert (Hsel : is_Some (db_select_file_url uid rid' db1)
                      <-> hits uid rid' rid' db = true).
       { rewrite <- db_select_hits. subst db1.
         destruct (Worker.update_processing_ok env); [|done].
         apply db_select_after_update. }
       assert (Hp1 : payload_of rid db1 = Some p_old).
       { subst db1. destruct (Worker.update_processing_ok env); [|done].
         rewrite payload_of_db_update. by destruct (hits uid rid' rid db). }
       assert (Hh1 : forall k, hits uid rid' k db1 = hits uid rid' k db).
       { intros k. subst db1. destruct (Worker.update_processing_ok env); [|done].
         apply hits_db_update. }
       clearbody db1.
       destruct (Worker.select_ok env);
         [destruct (db_select_file_url uid rid' db1) as [url|] eqn:Esel|];
         [destruct (Worker.update_completed_ok env);
          [|destruct (Worker.update_failed_ok env)]| |];
         cbn [fst snd Worker.table Worker.snapshots Worker.body app];
         rewrite ?payload_of_db_update, ?Hh1;
         cbn [set_extracted_data store_result mark_failed].
       all: (split; [|split]).
       all: try (intros Hno; exfalso; eapply Hno; reflexivity).
       all: try (intros; congruence).
       all: try (split_Forall; rewrite ?payload_of_db_update, ?Hh1;
                 cbn [set_extracted_data store_result mark_failed];
                 try destruct (hits uid rid' rid db); auto; fail).
       all: try (intros; destruct (hits uid rid' rid db); congruence).
       intros [= ->] _. rewrite (proj1 Hsel); eauto. }
  all: cbn [fst snd Worker.table Worker.snapshots Worker.body app Worker.fresh].
  all: split; [split_Forall; auto|split; [discriminate|done]].
Qed.

(** The second extraction of a completed record stores the new payload
    whole. *)
Lemma re_invocation_keeps_payload_whole_witness :
  payload_of "receipt-1"
    (Worker.table (snd (Worker.invoke Sample.req Sample.env Sample.completed_table)))
  = Some (Worker.mockExtractedData Sample.env).
Proof.
  destruct (re_invocation_keeps_payload_whole Sample.req Sample.env
              Sample.completed_table "receipt-1"
              (Sample.receipt completed (Some Sample.old_payload) Sample.url_a)
              Sample.old_payload)
    as (_ & Hnew & _); [vm_compute; reflexivity | reflexivity | reflexivity |].
  apply Hnew; [reflexivity | vm_compute; reflexivity].
Defined.

(** C6, as the code has it: a request without a valid identity touches
    nothing -- no call reaches the record store and the table stays as it
    was -- and is answered 401 Unauthorized, unless it is an OPTIONS
    request, which is answered "ok" before the identity is looked at. *)
Theorem unauthenticated_request_touches_nothing req env (db : Receipts) :
  Worker.getUser env (Worker.authorization req) = None ->
  Worker.calls (snd (Worker.invoke req env db)) = []
  /\ Worker.snapshots (snd (Worker.invoke req env db)) = []
  /\ Worker.table (snd (Worker.invoke req env db)) = db
  /\ (Worker.method req <> "OPTIONS" ->
      fst (Worker.invoke req env db)
      = {| Worker.status := 401; Worker.body := Worker.Text "Unauthorized" |})
  /\ (Worker.method req = "OPTIONS" ->
      fst (Worker.invoke req env db)
      = {| Worker.status := 200; Worker.body := Worker.Text "ok" |}).
Proof.
  intros Hauth. rewrite invoke_unfold, Hauth.
  destruct (String.eqb_spec (Worker.method req) "OPTIONS") as [E|E];
    cbn; repeat split; congruence.
Qed.

(** The same call with a token the auth service does not know. *)
Lemma unauthenticated_request_touches_nothing_witness :
  let bad := {| Worker.method := "POST";
                Worker.authorization := Some "expired";
                Worker.json_body := Some "receipt-1" |} in
  fst (Worker.invoke bad Sample.env Sample.pending_table)
  = {| Worker.status := 401; Worker.body := Worker.Text "Unauthorized" |}
  /\ Worker.calls (snd (Worker.invoke bad Sample.env Sample.pending_table)) = []
  /\ Worker.table (snd (Worker.invoke bad Sample.env Sample.pending_table))
     = Sample.pending_table.
Proof.
  intros bad.
  destruct (unauthenticated_request_touches_nothing bad Sample.env
              Sample.pending_table) as (Hcalls & _ & Htable & H401 & _);
    [reflexivity|].
  split; [apply H401; discriminate|]. split; assumption.
Defined.

(** The browser's preflight carries no identity and is answered 200. *)
Lemma preflight_is_answered_ok :
  ~ (forall req env (db : Receipts),
       Worker.getUser env (Worker.authorization req) = None ->
       Worker.status (fst (Worker.invoke req env db)) = 401).
Proof.
  intros H.
  specialize (H Sample.preflight Sample.env Sample.pending_table eq_refl).
  vm_compute in H. discriminate H.
Qed.



(** C8, as the code has it: with [Math.random()] in the interval from
    0 to 1 and the clock in the years 0000 to 9999, every payload an
    invocation produces (in its response or in an update) has as total
    a whole number of cents from 0 to 9999 divided by 100 in binary64
    arithmetic, which is not negative; a date of the form YYYY-MM-DD
    that names a day of the calendar; non-negative item prices; and its
    items present: they are the two fixed items. *)
Theorem payload_well_formed req env (db : Receipts) d :
  Double.unit_interval (Worker.random env) = true ->
  four_digit_year (Worker.now env) ->
  produces req env db d ->
  well_formed_in_binary64 d
  /\ items d = [ {| name := "Item 1"; price := Double.cents 1599 |};
                 {| name := "Item 2"; price := Double.cents 2350 |} ].
Proof.
  intros Hrand Hnow Hd. apply produces_mock in Hd. subst d.
  destruct (mockExtractedData_total env Hrand) as (k & Hk & Htotal).
  split; [|reflexivity]. split; [by exists k|]. split; [|split].
  - rewrite Htotal. apply DoubleFacts.cents_nonneg. lia.
  - apply JsFacts.split_toISOString_is_iso_date. exact Hnow.
  - cbn [items Worker.mockExtractedData]. split_Forall; by vm_compute.
Qed.

Lemma payload_well_formed_witness :
  well_formed_in_binary64 (Worker.mockExtractedData Sample.env).
Proof.
  apply (payload_well_formed Sample.req Sample.env Sample.pending_table).
  - vm_compute. reflexivity.
  - unfold four_digit_year. cbn. lia.
  - left. vm_compute. reflexivity.
Defined.

(** Two payloads outside the format of the specification.  With
    [Math.random()] at 0.0007 the total is the Number 0.07, which is
    0.070000000000000006661... and no whole number of cents.  With the
    clock in the year 10000 the date is ["+010000-01-01"]. *)
Lemma payload_outside_the_format :
  let p := Worker.mockExtractedData Demo.env_seven_cents in
  let q := Worker.mockExtractedData Demo.env_year_10000 in
  (produces Sample.req Demo.env_seven_cents Sample.pending_table p
   /\ Double.unit_interval (Worker.random Demo.env_seven_cents) = true
   /\ total p = Double.cents 7
   /\ ~ well_formed_payload p)
  /\ (produces Sample.req Demo.env_year_10000 Sample.pending_table q
      /\ date q = "+010000-01-01"
      /\ ~ well_formed_payload q).
Proof.
  cbv zeta. split.
  - split; [left; vm_compute; reflexivity|].
    split; [vm_compute; reflexivity|].
    assert (Htotal : total (Worker.mockExtractedData Demo.env_seven_cents)
                     = Double.cents 7) by (vm_compute; reflexivity).
    split; [exact Htotal|].
    intros [(v & Hv & c & Hc & Heq) _]. rewrite Htotal in Hv.
    assert (Hval : Double.value (Double.cents 7)
                   = Some (5044031582654956 # 72057594037927936))
      by (vm_compute; reflexivity).
    rewrite Hval in Hv. injection Hv as <-.
    unfold Qeq in Heq. cbn [Qnum Qden] in Heq. lia.
  - split; [left; vm_compute; reflexivity|].
    split; [vm_compute; reflexivity|].
    intros (_ & Hdate & _). vm_compute in Hdate. discriminate Hdate.
Qed.

(** C9, as the code has it: in a run that passes validation the
    indicator is set to 10 before the file store is called, to 30 after
    the store has succeeded and before the record is created, to 50
    after the creation has succeeded and before the worker is invoked,
    to 100 after the invocation has succeeded, and nothing after a step
    that fails -- so it does not decrease while the steps run -- and is
    then reset to 0 by the [finally] block, after a success as after a
    failure; all four checkpoints are reached exactly when the run
    succeeds, and the run ends with the success toast or, on failure,
    with the error toast. *)
Theorem progress_checkpoints_then_reset env file rest :
  Upload.type file ∈ Upload.validTypes ->
  Upload.size file <= 10 * 1024 * 1024 ->
  let tr := Upload.handleFileUpload env (Some (file :: rest)) in
  let path := upload_path env file in
  exists reached,
    Upload.progress_values tr = (reached ++ [0])%list
    /\ reached
       = 10 :: match Upload.uploadError env with
               | Some _ => []
               | None =>
                   30 :: match Upload.insert_result env with
                         | inl _ => []
                         | inr _ =>
                             50 :: match Upload.invoke_result env with
                                   | inl _ => []
                                   | inr _ => [100]
                                   end
                         end
               end
    /\ progress_and_calls tr
       = (Upload.setProgress 10 :: Upload.storage_upload path file ::
          match Upload.uploadError env with
          | Some _ => []
          | None =>
              Upload.setProgress 30 ::
              Upload.receipts_insert (Upload.getPublicUrl env path)
                (Upload.name file) pending ::
              match Upload.insert_result env with
              | inl _ => []
              | inr id =>
                  Upload.setProgress 50 ::
                  Upload.functions_invoke "process-receipt" id ::
                  match Upload.invoke_result env with
                  | inl _ => []
                  | inr _ => [Upload.setProgress 100]
                  end
              end
          end ++ [Upload.setProgress 0])%list
    /\ reached <> []
    /\ reached `prefix_of` checkpoints
    /\ StronglySorted Z.le reached
    /\ (reached = checkpoints <-> succeeds env = true)
    /\ Upload.toasts tr
       = [if succeeds env then Upload.success_toast else Upload.error_toast].
Proof.
  intros Hty Hsz tr path. subst tr path.
  unfold Upload.handleFileUpload, upload_path.
  apply UploadFacts.includes_elem_of in Hty. rewrite Hty. cbn [negb].
  replace (Upload.size file >? 10 * 1024 * 1024) with false
    by (symmetry; rewrite Z.gtb_ltb; apply Z.ltb_ge; lia).
  unfold succeeds, Upload.upload_body, Upload.uploadFile,
    Upload.createReceiptRecord, Upload.processReceipt, Upload.try_catch_finally,
    Upload.emit, Upload.throw, mbind, mret, Upload.Async_bind, Upload.Async_ret.
  destruct (Upload.uploadError env) as [e1|];
    [|destruct (Upload.insert_result env) as [e2|id];
      [|destruct (Upload.invoke_result env) as [e3|data]]]; cbn.
  - exists [10]. repeat split; try done.
    + by exists [30; 50; 100].
    + repeat constructor.
  - exists [10; 30]. repeat split; try done.
    + by exists [50; 100].
    + repeat constructor; lia.
  - exists [10; 30; 50]. repeat split; try done.
    + by exists [100].
    + repeat constructor; lia.
  - exists [10; 30; 50; 100]. repeat split; try done.
    repeat constructor; lia.
Qed.

(** A 2 MiB JPEG that goes through, and the same file when the store
    refuses it. *)
Lemma progress_checkpoints_then_reset_witness :
  (exists reached,
     Upload.progress_values
       (Upload.handleFileUpload Sample.backend (Some [Sample.jpeg_2mb]))
     = (reached ++ [0])%list
     /\ reached = checkpoints)
  /\ progress_and_calls
       (Upload.handleFileUpload Demo.backend_upload_fails (Some [Sample.jpeg_2mb]))
     = [ Upload.setProgress 10;
         Upload.storage_upload "receipts/0.25.jpg" Sample.jpeg_2mb;
         Upload.setProgress 0 ].
Proof.
  assert (Hty : Upload.type Sample.jpeg_2mb ∈ Upload.validTypes)
    by (apply UploadFacts.includes_elem_of; reflexivity).
  assert (Hsz : Upload.size Sample.jpeg_2mb <= 10 * 1024 * 1024) by (cbn; lia).
  split.
  - destruct (progress_checkpoints_then_reset Sample.backend Sample.jpeg_2mb []
                Hty Hsz) as (reached & Hvals & _ & _ & _ & _ & _ & Hall & _).
    exists reached. split; [exact Hvals|]. apply Hall. reflexivity.
  - destruct (progress_checkpoints_then_reset Demo.backend_upload_fails
                Sample.jpeg_2mb [] Hty Hsz) as (reached & _ & _ & Hcalls & _).
    rewrite Hcalls. vm_compute. reflexivity.
Defined.

(** After a successful run the indicator is at 0, not at 100. *)
Lemma progress_is_reset_after_success :
  ~ (forall env file,
       Upload.type file ∈ Upload.validTypes ->
       Upload.size file <= 10 * 1024 * 1024 ->
       succeeds env = true ->
       last (Upload.progress_values (Upload.handleFileUpload env (Some [file])))
       = Some 100).
Proof.
  intros H.
  assert (Hty : Upload.type Sample.jpeg_2mb ∈ Upload.validTypes)
    by (apply UploadFacts.includes_elem_of; reflexivity).
  assert (Hsz : Upload.size Sample.jpeg_2mb <= 10 * 1024 * 1024) by (cbn; lia).
  specialize (H Sample.backend Sample.jpeg_2mb Hty Hsz eq_refl).
  vm_compute in H. discriminate H.
Qed.

(** C10: two tables that differ at most in [file_url] give, for the
    same request and the same surroundings, the same response, the same
    calls (so the same payload is stored) and tables that again differ
    at most in [file_url]; hence the payloads that can be returned are
    the same for both.  The merchant and the items are constants. *)
Theorem payload_independent_of_file_url req (db1 db2 : Receipts) :
  same_but_file_url db1 db2 ->
  (forall env,
     fst (Worker.invoke req env db1) = fst (Worker.invoke req env db2)
     /\ Worker.calls (snd (Worker.invoke req env db1))
        = Worker.calls (snd (Worker.invoke req env db2))
     /\ same_but_file_url (Worker.table (snd (Worker.invoke req env db1)))
          (Worker.table (snd (Worker.invoke req env db2)))
     /\ merchant (Worker.mockExtractedData env) = "Sample Store"
     /\ items (Worker.mockExtractedData env)
        = [ {| name := "Item 1"; price := Double.cents 1599 |};
            {| name := "Item 2"; price := Double.cents 2350 |} ])
  /\ (forall d,
        (exists env, Worker.body (fst (Worker.invoke req env db1)) = Worker.JsonData d)
        <-> (exists env, Worker.body (fst (Worker.invoke req env db2)) = Worker.JsonData d)).
Proof.
  intros Hsame.
  assert (Hall : forall env,
     fst (Worker.invoke req env db1) = fst (Worker.invoke req env db2)
     /\ Worker.calls (snd (Worker.invoke req env db1))
        = Worker.calls (snd (Worker.invoke req env db2))
     /\ same_but_file_url (Worker.table (snd (Worker.invoke req env db1)))
          (Worker.table (snd (Worker.invoke req env db2)))).
  { intros env. rewrite !invoke_unfold.
    destruct (String.eqb _ _); [|destruct (Worker.getUser _ _) as [uid|];
      [destruct (Worker.json_body req) as [rid|]|]]; cbn zeta; [done| |done|done].
    set (s1 := if Worker.update_processing_ok env then _ else db1).
    set (s2 := if Worker.update_processing_ok env then _ else db2).
    assert (H1 : same_but_file_url s1 s2).
    { subst s1 s2. destruct (Worker.update_processing_ok env); [|done].
      by apply same_but_file_url_update. }
    pose proof (same_but_file_url_select uid rid s1 s2 H1) as Hsel.
    clearbody s1 s2.
    destruct (Worker.select_ok env).
    - destruct (db_select_file_url uid rid s1) as [u1|],
        (db_select_file_url uid rid s2) as [u2|].
      + destruct (Worker.update_completed_ok env);
          [|destruct (Worker.update_failed_ok env)];
          cbn [fst snd Worker.table Worker.calls];
          repeat split; auto using same_but_file_url_update.
      + exfalso. destruct (proj1 Hsel) as [? [=]]. by eexists.
      + exfalso. destruct (proj2 Hsel) as [? [=]]. by eexists.
      + done.
    - done. }
  split.
  - intros env. destruct (Hall env) as (H1 & H2 & H3). repeat split; assumption.
  - intros d. split; intros [env H]; exists env;
      [rewrite <- (proj1 (Hall env))|rewrite (proj1 (Hall env))]; exact H.
Qed.

(** The same completed record stored as a JPEG at one address and as a
    PDF at another. *)
Lemma payload_independent_of_file_url_witness :
  fst (Worker.invoke Sample.req Sample.env Sample.completed_table)
  = fst (Worker.invoke Sample.req Sample.env Sample.completed_table_b).
Proof.
  destruct (payload_independent_of_file_url Sample.req
              Sample.completed_table Sample.completed_table_b) as [Hall _];
    [vm_compute; reflexivity|].
  apply (Hall Sample.env).
Defined.

(** * More facts, for the properties below *)

Lemma states_Forall (P : Receipts -> Prop) w :
  Forall P (states w) <-> Forall P (Worker.snapshots w) /\ P (Worker.table w).
Proof. unfold states. by rewrite Forall_app, Forall_singleton. Qed.

Lemma owned_by_false uid r : user_id r <> Some uid -> owned_by uid r = false.
Proof. intros H. unfold owned_by. by rewrite bool_decide_eq_false. Qed.

Lemma db_update_not_owned uid rid p (db : Receipts) r :
  db !! rid = Some r -> owned_by uid r = false -> db_update uid rid p db = db.
Proof. unfold db_update. by intros -> ->. Qed.

Module MoreJsFacts.
Import Js JsFacts.

Lemma parse_date_text y m d :
  0 <= y <= 9999 -> 0 <= m <= 99 -> 0 <= d <= 99 ->
  parse_iso_date (date_text y m d) = Some (y, m, d).
Proof.
  intros Hy Hm Hd.
  unfold parse_iso_date, date_text. cbv [pad append list_ascii_of_string].
  rewrite !digit_value_digit.
  replace (1000 * (y / 10 / 10 / 10 mod 10) + 100 * (y / 10 / 10 mod 10)
           + 10 * (y / 10 mod 10) + y mod 10) with y by divlia.
  replace (10 * (m / 10 mod 10) + m mod 10) with m by divlia.
  replace (10 * (d / 10 mod 10) + d mod 10) with d by divlia.
  reflexivity.
Qed.

Lemma DaysInMonth_le_31 y m : DaysInMonth y m <= 31.
Proof.
  unfold DaysInMonth.
  repeat match goal with |- context [if ?b then _ else _] => destruct b end; lia.
Qed.

Lemma split_not_nil sep s : split sep s <> [].
Proof.
  destruct s as [|c s]; cbn [split]; [discriminate|].
  destruct (Ascii.eqb c sep); [discriminate|].
  destruct (split sep s); discriminate.
Qed.

Lemma split_free sep s : ~ occurs sep s -> split sep s = [s].
Proof.
  induction s as [|c s IH]; cbn [split]; [reflexivity|]. intros Hno.
  destruct (Ascii.eqb_spec c sep) as [->|Hne]; [exfalso; apply Hno; by left|].
  rewrite IH; [reflexivity|]. intros H. apply Hno. by right.
Qed.

Lemma split_one_piece sep s p :
  split sep s = [p] -> p = s /\ ~ occurs sep s.
Proof.
  revert p. induction s as [|c s IH]; intros p; cbn [split].
  - intros [= <-]. split; [reflexivity|intros []].
  - destruct (Ascii.eqb_spec c sep) as [->|Hne].
    + intros [= _ H]. by apply split_not_nil in H.
    + destruct (split sep s) as [|q [|q' qs]] eqn:E;
        [by apply split_not_nil in E| |discriminate].
      intros [= <-]. destruct (IH q eq_refl) as [-> Hno].
      split; [reflexivity|]. unfold occurs. cbn.
      intros [H|H]; [congruence|by apply Hno].
Qed.

Lemma last_piece_String sep c s :
  Upload.last_piece sep (String c s)
  = if Ascii.eqb c sep then Upload.last_piece sep s
    else match split sep s with
         | [_] => String c (Upload.last_piece sep s)
         | _ => Upload.last_piece sep s
         end.
Proof.
  unfold Upload.last_piece. cbn [split].
  pose proof (split_not_nil sep s) as Hne.
  destruct (Ascii.eqb c sep).
  - destruct (split sep s) as [|p ps]; [congruence|reflexivity].
  - destruct (split sep s) as [|p [|q ps]]; [congruence|reflexivity|reflexivity].
Qed.

(** The last piece has no separator in it, and the string is a prefix
    that is empty or ends in the separator, followed by the piece. *)
Lemma last_piece_spec sep s :
  ~ occurs sep (Upload.last_piece sep s)
  /\ exists pre,
       s = pre ++ Upload.last_piece sep s
       /\ (pre = "" \/ exists q, pre = q ++ String sep "").
Proof.
  induction s as [|c s IH].
  - split; [intros []|]. exists "". split; [reflexivity|by left].
  - rewrite last_piece_String. destruct IH as (Hno & pre & Hs & Hpre).
    destruct (Ascii.eqb_spec c sep) as [->|Hne].
    + split; [exact Hno|]. exists (String sep pre). split.
      * change (String sep s = String sep (pre ++ Upload.last_piece sep s)).
        by rewrite <- Hs.
      * right. destruct Hpre as [->|[q ->]]; [by exists ""|by exists (String sep q)].
    + destruct (split sep s) as [|p [|p' ps]] eqn:E.
      * by apply split_not_nil in E.
      * destruct (split_one_piece sep s p E) as [-> Hfree].
        assert (Hl : Upload.last_piece sep s = s)
          by (unfold Upload.last_piece; by rewrite E).
        rewrite Hl. split.
        -- unfold occurs. cbn. intros [H|H]; [congruence|by apply Hfree].
        -- exists "". split; [reflexivity|by left].
      * split; [exact Hno|]. exists (String c pre). split.
        -- change (String c s = String c (pre ++ Upload.last_piece sep s)).
           by rewrite <- Hs.
        -- right. destruct Hpre as [->|[q ->]]; [|by exists (String c q)].
           exfalso. change (s = Upload.last_piece sep s) in Hs.
           rewrite <- Hs in Hno. apply split_free in Hno.
           rewrite E in Hno. discriminate.
Qed.

Lemma occurs_suffix sep q : occurs sep (q ++ String sep "").
Proof. unfold occurs. induction q as [|a q IH]; cbn; [by left|by right]. Qed.

Lemma occurs_app_l sep a b : occurs sep a -> occurs sep (a ++ b).
Proof.
  unfold occurs. induction a as [|x a IH]; cbn; [tauto|].
  intros [H|H]; [by left|right; by apply IH].
Qed.

End MoreJsFacts.

Module MoreUploadFacts.

Ltac unfold_upload :=
  unfold Upload.upload_body, Upload.uploadFile,
    Upload.createReceiptRecord, Upload.processReceipt, Upload.try_catch_finally,
    Upload.emit, Upload.throw, mbind, mret, Upload.Async_bind, Upload.Async_ret.

Lemma valid_file_trace env file rest :
  passes_validation file ->
  Upload.handleFileUpload env (Some (file :: rest))
  = ([Upload.setUploading true; Upload.setProgress 10] ++
     Upload.try_catch_finally (Upload.upload_body env file)
       (fun error => [Upload.console_error error; Upload.toast Upload.error_toast])
       [Upload.setUploading false; Upload.setProcessing false; Upload.setProgress 0])%list.
Proof.
  intros [Hty Hsz]. unfold Upload.handleFileUpload.
  apply UploadFacts.includes_elem_of in Hty. rewrite Hty. cbn [negb].
  replace (Upload.size file >? 10 * 1024 * 1024) with false
    by (symmetry; rewrite Z.gtb_ltb; apply Z.ltb_ge; lia).
  reflexivity.
Qed.

Lemma invalid_file_trace env file rest :
  ~ passes_validation file ->
  Upload.handleFileUpload env (Some (file :: rest))
  = [Upload.toast (if Upload.includes Upload.validTypes (Upload.type file)
                   then Upload.too_large_toast else Upload.invalid_type_toast)].
Proof.
  intros Hbad. unfold Upload.handleFileUpload.
  destruct (Upload.includes Upload.validTypes (Upload.type file)) eqn:Hinc;
    cbn [negb]; [|reflexivity].
  apply UploadFacts.includes_elem_of in Hinc.
  replace (Upload.size file >? 10 * 1024 * 1024) with true; [reflexivity|].
  symmetry. apply Z.gtb_gt.
  destruct (Z_le_gt_dec (Upload.size file) (10 * 1024 * 1024)) as [Hle|Hgt];
    [|exact Hgt].
  exfalso. apply Hbad. by split.
Qed.

Lemma valid_file_calls env file rest :
  passes_validation file ->
  Upload.network_calls (Upload.handleFileUpload env (Some (file :: rest)))
  = Upload.storage_upload (upload_path env file) file ::
    match Upload.uploadError env with
    | Some _ => []
    | None =>
        Upload.receipts_insert (Upload.getPublicUrl env (upload_path env file))
          (Upload.name file) pending ::
        match Upload.insert_result env with
        | inl _ => []
        | inr id => [Upload.functions_invoke "process-receipt" id]
        end
    end.
Proof.
  intros Hv. rewrite valid_file_trace by exact Hv. unfold_upload. unfold upload_path.
  destruct (Upload.uploadError env) as [e1|];
    [|destruct (Upload.insert_result env) as [e2|id];
      [|destruct (Upload.invoke_result env) as [e3|data]]]; reflexivity.
Qed.

Lemma passes_validation_decide file :
  passes_validation file \/ ~ passes_validation file.
Proof.
  unfold passes_validation.
  destruct (decide (Upload.type file ∈ Upload.validTypes)); [|tauto].
  destruct (Z_le_gt_dec (Upload.size file) (10 * 1024 * 1024)); [tauto|].
  right. intros [_ H]. lia.
Qed.

End MoreUploadFacts.

Module TransactionListFacts.

Lemma sum_amounts_snoc l t :
  Tx.sum_amounts (l ++ [t]) = (Tx.sum_amounts l + Tx.amount t)%Q.
Proof. unfold Tx.sum_amounts. by rewrite fold_left_app. Qed.

Lemma sum_amounts_nonneg l :
  Forall (fun t => (0 < Tx.amount t)%Q) l -> (0 <= Tx.sum_amounts l)%Q.
Proof.
  induction l as [|t l IH] using rev_ind; intros Hpos.
  - unfold Tx.sum_amounts. cbn. apply Qle_refl.
  - apply Forall_app in Hpos as [Hl Ht]. rewrite Forall_singleton in Ht.
    rewrite sum_amounts_snoc.
    apply (Qplus_le_compat 0 _ 0 _); [by apply IH|by apply Qlt_le_weak].
Qed.

Lemma Forall_filter_keep {A} (P : A -> Prop) f (l : list A) :
  Forall P l -> Forall P (List.filter f l).
Proof.
  induction 1 as [|x l Hx Hl IH]; cbn; [constructor|].
  destruct (f x); [by constructor|done].
Qed.

End TransactionListFacts.

Module CompareFacts.

Lemma ascii_compare_cases a b :
  (Ascii.compare a b = Eq /\ a = b)
  \/ (Ascii.compare a b = Lt /\ (N_of_ascii a < N_of_ascii b)%N)
  \/ (Ascii.compare a b = Gt /\ (N_of_ascii b < N_of_ascii a)%N).
Proof.
  unfold Ascii.compare.
  destruct (N.compare_spec (N_of_ascii a) (N_of_ascii b)) as [H|H|H]; auto.
  left. split; [reflexivity|].
  rewrite <- (ascii_N_embedding a), <- (ascii_N_embedding b). by rewrite H.
Qed.

Lemma string_compare_trans a : forall b c,
  String.compare a b <> Gt -> String.compare b c <> Gt -> String.compare a c <> Gt.
Proof.
  induction a as [|x a IH]; intros [|y b] [|z c]; cbn [String.compare];
    try congruence.
  destruct (ascii_compare_cases x y) as [[E1 H1]|[[E1 H1]|[E1 H1]]],
    (ascii_compare_cases y z) as [[E2 H2]|[[E2 H2]|[E2 H2]]],
    (ascii_compare_cases x z) as [[E3 H3]|[[E3 H3]|[E3 H3]]];
    rewrite E1, E2, E3;
    first [congruence | apply IH | (subst; intros; exfalso; lia)].
Qed.

Lemma codepoint_compare_le a b :
  codepoint_compare a b <= 0 <-> String.compare a b <> Gt.
Proof.
  unfold codepoint_compare. destruct (String.compare a b); split; (lia || congruence).
Qed.

Lemma codepoint_compare_total a b :
  codepoint_compare a b <= 0 \/ codepoint_compare b a <= 0.
Proof.
  rewrite !codepoint_compare_le, (String.compare_antisym b a).
  destruct (String.compare a b); cbn; auto; left; congruence.
Qed.

Lemma codepoint_compare_trans a b c :
  codepoint_compare a b <= 0 -> codepoint_compare b c <= 0 ->
  codepoint_compare a c <= 0.
Proof. rewrite !codepoint_compare_le. apply string_compare_trans. Qed.

End CompareFacts.

Module ChartFacts.
Import FinancialCharts.

Section JsMap.
Context {V : Type}.
Implicit Types (m : JsMap V) (k : string) (v : V).

Lemma mget_mset m k k' v :
  mget k' (mset k v m) = if String.eqb k k' then Some v else mget k' m.
Proof.
  induction m as [|[k0 v0] m IH]; cbn [mset mget].
  - by destruct (String.eqb k k').
  - destruct (String.eqb_spec k0 k) as [->|Hne]; cbn [mget].
    + by destruct (String.eqb k k').
    + destruct (String.eqb_spec k0 k') as [->|Hne'].
      * destruct (String.eqb_spec k k'); [congruence|reflexivity].
      * exact IH.
Qed.

Lemma mset_keys_known m k v :
  is_Some (mget k m) -> map fst (mset k v m) = map fst m.
Proof.
  induction m as [|[k0 v0] m IH]; cbn [mset mget map fst].
  - by intros [? [=]].
  - destruct (String.eqb k0 k); [reflexivity|]. intros H. cbn. by rewrite IH.
Qed.

Lemma mset_keys_new m k v :
  mget k m = None -> map fst (mset k v m) = (map fst m ++ [k])%list.
Proof.
  induction m as [|[k0 v0] m IH]; cbn [mset mget map fst]; [reflexivity|].
  destruct (String.eqb k0 k); [discriminate|]. intros H. cbn. by rewrite IH.
Qed.

Lemma mget_None_keys m k : mget k m = None <-> ~ In k (map fst m).
Proof.
  induction m as [|[k0 v0] m IH]; cbn [mget map fst In]; [tauto|].
  destruct (String.eqb_spec k0 k) as [->|Hne]; [|rewrite IH; tauto].
  split; [discriminate|]. intros H. exfalso. apply H. by left.
Qed.

Lemma mget_Some_keys m k v : mget k m = Some v -> In k (map fst m).
Proof.
  intros H. destruct (in_dec string_dec k (map fst m)) as [Hin|Hout]; [done|].
  apply mget_None_keys in Hout. congruence.
Qed.

Lemma mset_NoDup m k v : NoDup (map fst m) -> NoDup (map fst (mset k v m)).
Proof.
  intros Hnd. destruct (mget k m) as [v0|] eqn:E.
  - by rewrite mset_keys_known.
  - rewrite mset_keys_new by done. apply NoDup_app. split; [done|].
    split; [|apply NoDup_singleton].
    intros x Hx Hk. apply list_elem_of_In in Hx.
    apply list_elem_of_singleton in Hk. subst x.
    by apply mget_None_keys in E.
Qed.

Lemma mget_In m k v : NoDup (map fst m) -> In (k, v) m -> mget k m = Some v.
Proof.
  induction m as [|[k0 v0] m IH]; cbn [map fst In mget]; [tauto|].
  intros Hnd [Heq|Hin].
  - injection Heq as -> ->. by rewrite String.eqb_refl.
  - apply NoDup_cons in Hnd as [Hk0 Hnd].
    destruct (String.eqb_spec k0 k) as [->|Hne]; [|by apply IH].
    exfalso. apply Hk0. apply list_elem_of_In.
    change k with (fst (k, v)). by apply in_map.
Qed.

Lemma in_mvalues m v :
  NoDup (map fst m) ->
  In v (mvalues m) <-> exists k, mget k m = Some v.
Proof.
  intros Hnd. unfold mvalues. rewrite in_map_iff. split.
  - intros [[k v'] [<- Hin]]. exists k. by apply mget_In.
  - intros [k Hk]. exists (k, v). split; [reflexivity|].
    clear Hnd. induction m as [|[k0 v0] m IH]; cbn [mget] in Hk; [discriminate|].
    destruct (String.eqb_spec k0 k) as [->|Hne].
    + left. congruence.
    + right. by apply IH.
Qed.

End JsMap.

Lemma getExpensesByCategory_fold transactions :
  getExpensesByCategory transactions
  = mvalues (fold_left category_step (List.filter Tx.is_expense transactions) []).
Proof. reflexivity. Qed.

Lemma category_fold_NoDup l :
  NoDup (map fst (fold_left category_step l [])).
Proof.
  induction l as [|t l IH] using rev_ind; [constructor|].
  rewrite fold_left_app. cbn [fold_left].
  set (m := fold_left category_step l []) in *. unfold category_step.
  destruct (mget _ _); by apply mset_NoDup.
Qed.

Lemma slice_snoc k l t :
  slice k (l ++ [t])
  = if Tx.is_expense t && String.eqb (categoryName t) k
    then match slice k l with
         | Some entry =>
             Some {| name := name entry;
                     value := (value entry + Tx.amount t)%Q;
                     color := color entry |}
         | None =>
             Some {| name := k; value := Tx.amount t; color := categoryColor t |}
         end
    else slice k l.
Proof.
  unfold slice. rewrite List.filter_app. cbn [List.filter].
  destruct (Tx.is_expense t && String.eqb (categoryName t) k).
  - destruct (List.filter _ l) as [|t0 ts]; cbn [app]; [reflexivity|].
    by rewrite fold_left_app.
  - by rewrite app_nil_r.
Qed.

Lemma filter_expenses_first (q : Tx.Transaction -> bool) l :
  List.filter (fun t => Tx.is_expense t && q t) (List.filter Tx.is_expense l)
  = List.filter (fun t => Tx.is_expense t && q t) l.
Proof.
  induction l as [|t l IH]; [reflexivity|].
  cbn [List.filter]. destruct (Tx.is_expense t) eqn:E; cbn [List.filter andb].
  - rewrite E. cbn [andb]. destruct (q t); by rewrite IH.
  - exact IH.
Qed.

Lemma slice_expenses k l :
  slice k (List.filter Tx.is_expense l) = slice k l.
Proof.
  unfold slice.
  by rewrite (filter_expenses_first (fun t => String.eqb (categoryName t) k)).
Qed.

Lemma category_fold_get l k :
  Forall (fun t => Tx.is_expense t = true) l ->
  mget k (fold_left category_step l []) = slice k l.
Proof.
  induction l as [|t l IH] using rev_ind; intros Hexp; [reflexivity|].
  apply Forall_app in Hexp as [Hl Ht]. rewrite Forall_singleton in Ht.
  rewrite fold_left_app, slice_snoc, Ht. cbn [fold_left andb].
  specialize (IH Hl). set (m := fold_left category_step l []) in *.
  unfold category_step.
  destruct (String.eqb_spec (categoryName t) k) as [->|Hne].
  - rewrite IH. destruct (slice k l) as [entry|];
      rewrite mget_mset, String.eqb_refl; reflexivity.
  - destruct (mget (categoryName t) _); rewrite mget_mset;
      (destruct (String.eqb_spec (categoryName t) k); [congruence|exact IH]).
Qed.

Lemma slice_name k l entry : slice k l = Some entry -> name entry = k.
Proof.
  unfold slice. destruct (List.filter _ l); [discriminate|]. by intros [= <-].
Qed.

Lemma names_are_keys (m : JsMap Slice) :
  (forall k e, In (k, e) m -> name e = k) ->
  map name (mvalues m) = map fst m.
Proof.
  intros Hm. unfold mvalues. induction m as [|[k e] m IH]; [reflexivity|].
  cbn. rewrite (Hm k e) by (by left). f_equal. apply IH.
  intros k' e' H'. apply Hm. by right.
Qed.

Section Accumulate.
Variable key : Tx.Transaction -> string.

Lemma bucket_snoc k l t :
  bucket key k (l ++ [t])
  = if String.eqb (key t) k then add_amount t (bucket key k l) else bucket key k l.
Proof.
  unfold bucket, add_amount. rewrite List.filter_app. cbn [List.filter].
  destruct (String.eqb (key t) k); [|by rewrite app_nil_r].
  rewrite !List.filter_app. cbn [List.filter label income expenses].
  destruct (Tx.is_income t); cbn [negb];
    rewrite ?app_nil_r; unfold Tx.sum_amounts; by rewrite fold_left_app.
Qed.

Lemma bucket_unseen k l :
  Forall (fun t => key t <> k) l ->
  bucket key k l = {| label := k; income := 0; expenses := 0 |}.
Proof.
  intros Hl. unfold bucket.
  replace (List.filter (fun t => String.eqb (key t) k) l) with (@nil Tx.Transaction);
    [reflexivity|].
  symmetry. induction Hl as [|t l Ht Hl IH]; [reflexivity|].
  cbn [List.filter]. by destruct (String.eqb_spec (key t) k).
Qed.

Lemma accumulate_NoDup m t :
  NoDup (map fst m) -> NoDup (map fst (accumulate key m t)).
Proof.
  intros Hnd. unfold accumulate.
  destruct (negb (mhas (key t) m));
    (destruct (mget (key t) _); auto using mset_NoDup).
Qed.

Lemma accumulate_fold_NoDup l :
  NoDup (map fst (fold_left (accumulate key) l [])).
Proof.
  induction l as [|t l IH] using rev_ind; [constructor|].
  rewrite fold_left_app. cbn [fold_left]. by apply accumulate_NoDup.
Qed.

Lemma mget_accumulate m t k :
  mget k (accumulate key m t)
  = if String.eqb (key t) k
    then Some (add_amount t
                 (default {| label := key t; income := 0; expenses := 0 |}
                    (mget (key t) m)))
    else mget k m.
Proof.
  unfold accumulate, mhas.
  destruct (mget (key t) m) as [data|] eqn:E; cbn [negb default].
  - rewrite E, mget_mset. reflexivity.
  - rewrite mget_mset, String.eqb_refl, mget_mset.
    destruct (String.eqb_spec (key t) k) as [->|Hne]; [reflexivity|].
    rewrite mget_mset. by destruct (String.eqb_spec (key t) k).
Qed.

Lemma accumulate_fold_get l k :
  mget k (fold_left (accumulate key) l [])
  = if existsb (fun t => String.eqb (key t) k) l
    then Some (bucket key k l) else None.
Proof.
  induction l as [|t l IH] using rev_ind; [reflexivity|].
  rewrite fold_left_app, existsb_app, bucket_snoc. cbn [fold_left existsb].
  rewrite mget_accumulate, orb_false_r.
  destruct (String.eqb_spec (key t) k) as [->|Hne].
  - rewrite orb_true_r, IH.
    destruct (existsb _ l) eqn:Ex; cbn [default]; [reflexivity|].
    rewrite bucket_unseen; [reflexivity|].
    apply Forall_forall. intros x Hx Hk. apply list_elem_of_In in Hx.
    assert (Hex : existsb (fun t => String.eqb (key t) k) l = true).
    { apply existsb_exists. exists x. split; [done|]. rewrite Hk.
      apply String.eqb_refl. }
    congruence.
  - by rewrite orb_false_r, IH.
Qed.

Lemma bucket_label k l : label (bucket key k l) = k.
Proof. reflexivity. Qed.

(** The entries of the map of a loop: one for each key that occurs, and
    it is the bucket of that key. *)
Lemma accumulate_fold_values l e :
  In e (mvalues (fold_left (accumulate key) l []))
  <-> exists t, In t l /\ e = bucket key (key t) l.
Proof.
  rewrite in_mvalues by apply accumulate_fold_NoDup. split.
  - intros [k Hk]. rewrite accumulate_fold_get in Hk.
    destruct (existsb _ l) eqn:Ex; [|discriminate].
    apply existsb_exists in Ex as (t & Ht & Hkt). apply String.eqb_eq in Hkt.
    exists t. split; [done|]. congruence.
  - intros (t & Ht & ->). exists (key t). rewrite accumulate_fold_get.
    replace (existsb _ l) with true; [reflexivity|].
    symmetry. apply existsb_exists. exists t. split; [done|apply String.eqb_refl].
Qed.

Lemma accumulate_fold_labels l :
  map label (mvalues (fold_left (accumulate key) l []))
  = map fst (fold_left (accumulate key) l []).
Proof.
  pose proof (accumulate_fold_NoDup l) as Hnd.
  assert (Hall : forall k e, In (k, e) (fold_left (accumulate key) l []) -> label e = k).
  { intros k e Hin. apply (mget_In _ _ _ Hnd) in Hin.
    rewrite accumulate_fold_get in Hin.
    destruct (existsb _ l); [|discriminate]. by injection Hin as <-. }
  revert Hall. generalize (fold_left (accumulate key) l []). intros m Hm.
  unfold mvalues. induction m as [|[k e] m IH]; [reflexivity|].
  cbn. rewrite (Hm k e) by (by left). f_equal. apply IH.
  intros k' e' H'. apply Hm. by right.
Qed.

End Accumulate.

Section Sorting.
Variable localeCompare : string -> string -> Z.
Hypothesis localeCompare_total :
  forall a b, localeCompare a b <= 0 \/ localeCompare b a <= 0.
Hypothesis localeCompare_trans :
  forall a b c, localeCompare a b <= 0 -> localeCompare b c <= 0 ->
                localeCompare a c <= 0.

#[local] Instance label_le_total : Total (label_le localeCompare).
Proof. intros a b. apply localeCompare_total. Qed.

#[local] Instance label_le_trans : Transitive (label_le localeCompare).
Proof. intros a b c. apply localeCompare_trans. Qed.

Lemma sort_by_label_spec l :
  StronglySorted (label_le localeCompare) (sort_by_label localeCompare l)
  /\ sort_by_label localeCompare l ≡ₚ l.
Proof.
  unfold sort_by_label. split;
    [apply StronglySorted_merge_sort; apply _|apply merge_sort_Permutation].
Qed.

Lemma trends_spec key l :
  let result :=
    sort_by_label localeCompare (mvalues (fold_left (accumulate key) l [])) in
  StronglySorted (label_le localeCompare) result
  /\ NoDup (map label result)
  /\ (forall e, In e result <-> exists t, In t l /\ e = bucket key (key t) l).
Proof.
  cbv zeta. destruct (sort_by_label_spec (mvalues (fold_left (accumulate key) l [])))
    as [Hsorted Hperm].
  split; [exact Hsorted|]. split.
  - assert (Hp : map label (sort_by_label localeCompare
                              (mvalues (fold_left (accumulate key) l [])))
                 ≡ₚ map label (mvalues (fold_left (accumulate key) l []))).
    { by apply Permutation_map. }
    rewrite Hp, accumulate_fold_labels. apply accumulate_fold_NoDup.
  - intros e. rewrite <- accumulate_fold_values. split; intros H.
    + eapply Permutation_in; [exact Hperm|exact H].
    + eapply Permutation_in; [symmetry; exact Hperm|exact H].
Qed.

End Sorting.

End ChartFacts.

(** * Further properties of the code *)

Import MoreUploadFacts TransactionListFacts ChartFacts.

(** X1: an invocation leaves every record other than the one its body
    names as it was, after each of its writes and at the end. *)
Theorem other_records_untouched req env (db : Receipts) k :
  Worker.json_body req <> Some k ->
  Forall (fun s => s !! k = db !! k) (states (snd (Worker.invoke req env db))).
Proof.
  intros Hk. apply states_Forall. rewrite invoke_unfold.
  destruct (String.eqb _ _); [|destruct (Worker.getUser _ _) as [uid|];
    [destruct (Worker.json_body req) as [rid|]|]]; cbn zeta.
  2: { assert (Hne : k <> rid) by congruence.
       assert (Hup : forall p s, db_update uid rid p s !! k = s !! k).
       { intros p s. rewrite lookup_db_update. by rewrite decide_False. }
       destruct (Worker.update_processing_ok env), (Worker.select_ok env);
       try destruct (db_select_file_url uid rid _);
       try destruct (Worker.update_completed_ok env);
       try destruct (Worker.update_failed_ok env);
       cbn [fst snd Worker.table Worker.snapshots];
       split; split_Forall; rewrite ?Hup; reflexivity. }
  all: cbn [fst snd Worker.fresh Worker.table Worker.snapshots];
    split; split_Forall; reflexivity.
Qed.

(** The caller's record is extracted; the completed record beside it
    stays as it is. *)
Lemma other_records_untouched_witness :
  Demo.two_records !! "receipt-2"
  = Some (Sample.receipt completed (Some Sample.old_payload) Sample.url_b)
  /\ Forall (fun s => s !! "receipt-2" = Demo.two_records !! "receipt-2")
       (states (snd (Worker.invoke Sample.req Sample.env Demo.two_records))).
Proof.
  split; [vm_compute; reflexivity|].
  apply (other_records_untouched Sample.req Sample.env Demo.two_records
           "receipt-2").
  discriminate.
Defined.

(** X2: the worker adds no record and removes none, and it never changes
    the owner, the file URL, the file name or the creation time of a
    record. *)
Theorem keys_and_identity_columns_kept req env (db : Receipts) k :
  Forall (fun s => identity_columns <$> s !! k = identity_columns <$> db !! k)
    (states (snd (Worker.invoke req env db))).
Proof.
  apply states_Forall.
  apply (invoke_states
           (fun s => identity_columns <$> s !! k = identity_columns <$> db !! k));
    [|reflexivity].
  intros uid rid p s _ Hs. rewrite <- Hs, lookup_db_update.
  destruct (decide (k = rid)); [|done].
  destruct (s !! k) as [r|]; cbn; [|done].
  by destruct (owned_by uid r).
Qed.

(** X3: a record whose [user_id] is not the caller's (another user's,
    or null) is invisible under the row-level policies: the worker
    answers 404 and the table is the same after every call. *)
Theorem foreign_record_is_not_found req env (db : Receipts) uid rid r :
  Worker.method req <> "OPTIONS" ->
  Worker.getUser env (Worker.authorization req) = Some uid ->
  Worker.json_body req = Some rid ->
  db !! rid = Some r ->
  user_id r <> Some uid ->
  fst (Worker.invoke req env db)
  = {| Worker.status := 404; Worker.body := Worker.Text "Receipt not found" |}
  /\ Forall (fun s => s = db) (states (snd (Worker.invoke req env db))).
Proof.
  intros Hm Hauth Hbody Hr Hown. rewrite states_Forall, invoke_unfold.
  apply String.eqb_neq in Hm. rewrite Hm, Hauth, Hbody. cbn zeta.
  pose proof (owned_by_false uid r Hown) as Ho.
  rewrite (db_update_not_owned uid rid _ db r Hr Ho).
  unfold db_select_file_url.
  destruct (Worker.update_processing_ok env), (Worker.select_ok env);
    rewrite ?Hr, ?Ho; cbn; repeat split; split_Forall; reflexivity.
Qed.

Lemma foreign_record_is_not_found_witness :
  fst (Worker.invoke Sample.req Sample.env Demo.foreign_table)
  = {| Worker.status := 404; Worker.body := Worker.Text "Receipt not found" |}
  /\ Forall (fun s => s = Demo.foreign_table)
       (states (snd (Worker.invoke Sample.req Sample.env Demo.foreign_table))).
Proof.
  eapply (foreign_record_is_not_found Sample.req Sample.env Demo.foreign_table
            "user-1" "receipt-1");
    [discriminate | reflexivity | reflexivity | vm_compute; reflexivity
    | discriminate].
Defined.

(** X4: what the status code tells about the record store: with 401 or
    500 no call was made and the table is as before; with 404 or 400
    the update to processing had been sent, followed by the lookup. *)
Theorem status_code_and_side_effects req env (db : Receipts) :
  let resp := fst (Worker.invoke req env db) in
  let w := snd (Worker.invoke req env db) in
  (Worker.status resp = 401 \/ Worker.status resp = 500 ->
   Worker.calls w = [] /\ Worker.table w = db)
  /\ (Worker.status resp = 404 \/ Worker.status resp = 400 ->
      exists uid rid rest,
        Worker.calls w
        = Worker.Update uid rid mark_processing :: Worker.Select uid rid :: rest).
Proof.
  cbv zeta. rewrite invoke_unfold.
  destruct (String.eqb _ _); [|destruct (Worker.getUser _ _) as [uid|];
    [destruct (Worker.json_body req) as [rid|]|]]; cbn zeta.
  2: { destruct (if Worker.select_ok env then _ else None);
         [destruct (Worker.update_completed_ok env)|];
         cbn [fst snd Worker.status Worker.calls Worker.table];
         (split; [intros [?|?]; discriminate|intros _; eauto]). }
  all: cbn; split; [auto|intros [?|?]; discriminate].
Qed.

(** X5: when the lookup comes back with an error, the worker answers
    404 "Receipt not found" although the record exists, and leaves the
    record in processing: the write of lines 34-37 had already been
    made. *)
Theorem failed_lookup_leaves_processing req env (db : Receipts) uid rid r :
  Worker.method req <> "OPTIONS" ->
  Worker.getUser env (Worker.authorization req) = Some uid ->
  Worker.json_body req = Some rid ->
  db !! rid = Some r ->
  user_id r = Some uid ->
  Worker.update_processing_ok env = true ->
  Worker.select_ok env = false ->
  fst (Worker.invoke req env db)
  = {| Worker.status := 404; Worker.body := Worker.Text "Receipt not found" |}
  /\ Worker.table (snd (Worker.invoke req env db)) !! rid
     = Some (apply_patch mark_processing r).
Proof.
  intros Hm Hauth Hbody Hr Hown Hp Hs. rewrite invoke_unfold.
  apply String.eqb_neq in Hm. rewrite Hm, Hauth, Hbody, Hp, Hs. cbn.
  split; [reflexivity|].
  rewrite (db_update_owned uid rid _ db r Hr (owned_by_true uid r Hown)).
  apply lookup_insert_eq.
Qed.

Lemma failed_lookup_leaves_processing_witness :
  fst (Worker.invoke Sample.req Demo.env_lookup_fails Sample.pending_table)
  = {| Worker.status := 404; Worker.body := Worker.Text "Receipt not found" |}
  /\ status_of "receipt-1"
       (Worker.table
          (snd (Worker.invoke Sample.req Demo.env_lookup_fails Sample.pending_table)))
     = Some processing.
Proof.
  destruct (failed_lookup_leaves_processing Sample.req Demo.env_lookup_fails
              Sample.pending_table "user-1" "receipt-1"
              (Sample.receipt pending None Sample.url_a)) as [Hresp Hrow];
    [discriminate | reflexivity | reflexivity | vm_compute; reflexivity
    | reflexivity | reflexivity | reflexivity |].
  split; [exact Hresp|]. unfold status_of. by rewrite Hrow.
Defined.

(** X6: when the write of the result comes back with an error, the
    worker answers 400 with the store's message; the record ends as
    failed if the write of failed is accepted, otherwise it stays in
    processing (or, if that write had failed too, in its old status);
    its extracted data is what it was before. *)
Theorem failed_write_marks_failed req env (db : Receipts) uid rid r :
  Worker.method req <> "OPTIONS" ->
  Worker.getUser env (Worker.authorization req) = Some uid ->
  Worker.json_body req = Some rid ->
  db !! rid = Some r ->
  user_id r = Some uid ->
  Worker.select_ok env = true ->
  Worker.update_completed_ok env = false ->
  let w := snd (Worker.invoke req env db) in
  fst (Worker.invoke req env db)
  = {| Worker.status := 400;
       Worker.body := Worker.JsonError (Worker.update_error_message env) |}
  /\ status_of rid (Worker.table w)
     = Some (if Worker.update_failed_ok env then failed
             else if Worker.update_processing_ok env then processing
             else processing_status r)
  /\ payload_of rid (Worker.table w) = extracted_data r.
Proof.
  intros Hm Hauth Hbody Hr Hown Hsel Hupd w. subst w. rewrite invoke_unfold.
  apply String.eqb_neq in Hm. rewrite Hm, Hauth, Hbody, Hsel, Hupd. cbn zeta.
  pose proof (owned_by_true uid r Hown) as Ho.
  assert (Hhit : hits uid rid rid db = true).
  { unfold hits. rewrite Hr. cbn. rewrite Ho. by rewrite bool_decide_eq_true_2. }
  assert (Hs0 : status_of rid db = Some (processing_status r))
    by (by apply status_of_Some).
  assert (Hp0 : payload_of rid db = extracted_data r)
    by (unfold payload_of; by rewrite Hr).
  set (db1 := if Worker.update_processing_ok env then _ else db).
  assert (Hsome : is_Some (db_select_file_url uid rid db1)).
  { subst db1. destruct (Worker.update_processing_ok env).
    - apply db_select_after_update, db_select_hits, Hhit.
    - apply db_select_hits, Hhit. }
  destruct Hsome as [url ->].
  subst db1.
  destruct (Worker.update_processing_ok env), (Worker.update_failed_ok env);
    cbn [fst snd Worker.table];
    rewrite ?status_of_db_update, ?payload_of_db_update, ?hits_db_update, ?Hhit,
      ?Hs0, ?Hp0; cbn; repeat split; done.
Qed.

Lemma failed_write_marks_failed_witness :
  let w := snd (Worker.invoke Sample.req Demo.env_write_fails Sample.completed_table) in
  Worker.status (fst (Worker.invoke Sample.req Demo.env_write_fails
                        Sample.completed_table)) = 400
  /\ status_of "receipt-1" (Worker.table w) = Some failed
  /\ payload_of "receipt-1" (Worker.table w) = Some Sample.old_payload.
Proof.
  destruct (failed_write_marks_failed Sample.req Demo.env_write_fails
              Sample.completed_table "user-1" "receipt-1"
              (Sample.receipt completed (Some Sample.old_payload) Sample.url_a))
    as (Hresp & Hst & Hp);
    [discriminate | reflexivity | reflexivity | vm_compute; reflexivity
    | reflexivity | reflexivity | reflexivity |].
  cbv zeta. split; [by rewrite Hresp|]. split; assumption.
Defined.

(** X7: every call an invocation makes to the record store is made for
    the authenticated caller and for the [receipt_id] of the body, and
    is the lookup or one of the worker's three updates. *)
Theorem calls_in_the_callers_name req env (db : Receipts) c :
  In c (Worker.calls (snd (Worker.invoke req env db))) ->
  exists uid rid,
    Worker.getUser env (Worker.authorization req) = Some uid
    /\ Worker.json_body req = Some rid
    /\ (c = Worker.Select uid rid
        \/ exists p, c = Worker.Update uid rid p /\ worker_patch p).
Proof.
  rewrite invoke_unfold.
  destruct (String.eqb _ _); [|destruct (Worker.getUser _ _) as [uid|];
    [destruct (Worker.json_body req) as [rid|]|]]; cbn zeta; try (cbn; tauto).
  assert (H1 : worker_patch mark_processing) by (left; reflexivity).
  assert (H2 : forall d, worker_patch (store_result d)) by (right; left; eauto).
  assert (H3 : worker_patch mark_failed) by (right; right; reflexivity).
  destruct (if Worker.select_ok env then _ else None);
    [destruct (Worker.update_completed_ok env)|];
    cbn [fst snd Worker.calls In]; intros Hin; exists uid, rid;
    (split; [reflexivity|split; [reflexivity|]]);
    intuition (subst; eauto).
Qed.

Lemma calls_in_the_callers_name_witness :
  exists uid rid,
    Worker.getUser Sample.env (Worker.authorization Sample.req) = Some uid
    /\ Worker.json_body Sample.req = Some rid
    /\ (Worker.Select "user-1" "receipt-1" = Worker.Select uid rid
        \/ exists p, Worker.Select "user-1" "receipt-1" = Worker.Update uid rid p
                     /\ worker_patch p).
Proof.
  apply (calls_in_the_callers_name Sample.req Sample.env Sample.pending_table).
  vm_compute. right. left. reflexivity.
Defined.

(** X8: a record that arrives with the columns of the insert of
    [createReceiptRecord] and is then extracted for the caller.  The
    insert names no [user_id], and the worker reaches only the rows
    whose [user_id] is the caller's: with the column null, as the README
    schema leaves it (a row its INSERT policy would not take from the
    caller), or holding anyone else, the worker answers 404 and the
    record stays pending as inserted, whatever the store answers; only
    when the column holds the caller does the record go pending,
    processing, completed, with every call accepted, ending with the
    columns of the insert and the payload of the invocation. *)
Theorem created_record_is_extracted_for_its_owner req env (db : Receipts)
    uid rid owner url fname created :
  Worker.method req <> "OPTIONS" ->
  Worker.getUser env (Worker.authorization req) = Some uid ->
  Worker.json_body req = Some rid ->
  db !! rid = None ->
  let ops := [Create rid owner url fname created; Extract req env] in
  let created_table := db_insert_pending rid owner url fname created db in
  (owner <> Some uid ->
   fst (Worker.invoke req env created_table)
   = {| Worker.status := 404; Worker.body := Worker.Text "Receipt not found" |}
   /\ status_of rid <$> run ops db = [Some pending; Some pending]
   /\ Forall (fun s => s !! rid = Some (inserted_row owner url fname created))
        (run ops db))
  /\ (owner = Some uid ->
      Worker.update_processing_ok env = true ->
      Worker.select_ok env = true ->
      Worker.update_completed_ok env = true ->
      status_of rid <$> run ops db
      = [Some pending; Some processing; Some completed]
      /\ (forall s, last (run ops db) = Some s ->
          s !! rid
          = Some {| user_id := Some uid; file_url := url; file_name := fname;
                    processing_status := completed;
                    extracted_data := Some (Worker.mockExtractedData env);
                    created_at := created |})).
Proof.
  intros Hm Hauth Hbody Hnone ops created_table. subst ops created_table.
  cbn [run exec Worker.snapshots Worker.table app].
  assert (Hdb : db_insert_pending rid owner url fname created db
                = <[rid := inserted_row owner url fname created]> db)
    by (unfold db_insert_pending, inserted_row; by rewrite Hnone).
  rewrite Hdb. clear Hdb.
  set (r0 := inserted_row owner url fname created).
  assert (Hr0 : <[rid := r0]> db !! rid = Some r0) by apply lookup_insert_eq.
  rewrite invoke_unfold.
  apply String.eqb_neq in Hm. rewrite Hm, Hauth, Hbody. cbn zeta.
  split.
  - intros Hown.
    pose proof (owned_by_false uid r0 Hown) as Ho.
    rewrite (db_update_not_owned uid rid _ _ r0 Hr0 Ho).
    unfold db_select_file_url.
    destruct (Worker.update_processing_ok env), (Worker.select_ok env);
      rewrite ?Hr0, ?Ho; cbn [fst snd Worker.table Worker.snapshots app fmap list_fmap];
      unfold status_of; rewrite ?Hr0; cbn; repeat split; split_Forall; done.
  - intros -> Hp Hs Hc. rewrite Hp, Hs, Hc.
    assert (Ho : owned_by uid r0 = true) by (by apply owned_by_true).
    rewrite (db_update_owned uid rid mark_processing _ r0 Hr0 Ho).
    rewrite (db_select_owned uid rid _ (apply_patch mark_processing r0)
               (lookup_insert_eq _ _ _) Ho).
    rewrite (db_update_owned uid rid (store_result _) _ (apply_patch mark_processing r0)
               (lookup_insert_eq _ _ _) Ho).
    cbn [fst snd Worker.table Worker.snapshots app fmap list_fmap].
    unfold status_of. rewrite !lookup_insert_eq. cbn. split; [reflexivity|].
    intros s [= <-]. by rewrite lookup_insert_eq.
Qed.

(** The record as [createReceiptRecord] asks for it, with no owner: it
    is not found, and stays pending. *)
Lemma created_record_is_extracted_for_its_owner_witness :
  Worker.status
    (fst (Worker.invoke Sample.req Sample.env
            (db_insert_pending "receipt-1" None Sample.url_a "lunch.jpg"
               "2026-11-03T06:59:00Z" ∅)))
  = 404
  /\ status_of "receipt-1"
     <$> run [Create "receipt-1" None Sample.url_a "lunch.jpg"
                "2026-11-03T06:59:00Z";
              Extract Sample.req Sample.env] ∅
     = [Some pending; Some pending].
Proof.
  destruct (created_record_is_extracted_for_its_owner Sample.req Sample.env ∅
              "user-1" "receipt-1" None Sample.url_a "lunch.jpg"
              "2026-11-03T06:59:00Z") as [Hnot _];
    [discriminate | reflexivity | reflexivity | apply lookup_empty |].
  destruct Hnot as (Hresp & Hst & _); [discriminate|].
  split; [by rewrite Hresp|exact Hst].
Defined.

(** X9: a file that passes validation is first stored, under
    "receipts/" followed by the random text, a dot and the last piece of
    the file's name; only if that succeeds is a pending record inserted,
    with the public URL of that path and the file's name; and only if
    that succeeds is the worker invoked, with the id the insert
    returned.  No other network call is made. *)
Theorem network_calls_in_order env file rest :
  passes_validation file ->
  Upload.network_calls (Upload.handleFileUpload env (Some (file :: rest)))
  = Upload.storage_upload (upload_path env file) file ::
    match Upload.uploadError env with
    | Some _ => []
    | None =>
        Upload.receipts_insert (Upload.getPublicUrl env (upload_path env file))
          (Upload.name file) pending ::
        match Upload.insert_result env with
        | inl _ => []
        | inr id => [Upload.functions_invoke "process-receipt" id]
        end
    end.
Proof. apply valid_file_calls. Qed.

Lemma network_calls_in_order_witness :
  Upload.network_calls (Upload.handleFileUpload Sample.backend (Some [Sample.jpeg_2mb]))
  = [ Upload.storage_upload "receipts/0.25.jpg" Sample.jpeg_2mb;
      Upload.receipts_insert "https://store.example/receipts/0.25.jpg"
        "lunch.jpg" pending;
      Upload.functions_invoke "process-receipt" "receipt-1" ].
Proof.
  rewrite (network_calls_in_order Sample.backend Sample.jpeg_2mb []).
  - vm_compute. reflexivity.
  - split; [apply UploadFacts.includes_elem_of; reflexivity|cbn; lia].
Defined.

(** X10: the storage upload is attempted exactly for the files whose
    type is on the allow-list and whose size is at most 10 MiB; a file
    of exactly 10 MiB passes. *)
Theorem upload_attempted_iff_valid env file rest :
  Upload.network_calls (Upload.handleFileUpload env (Some (file :: rest))) <> []
  <-> passes_validation file.
Proof.
  split.
  - intros Hcalls. destruct (passes_validation_decide file) as [Hv|Hbad]; [exact Hv|].
    exfalso. apply Hcalls. by rewrite invalid_file_trace.
  - intros Hv. rewrite valid_file_calls by exact Hv. discriminate.
Qed.

(** X11: after a run on a file that passes validation the component
    is neither uploading nor processing and its progress is 0; the
    extracted data it holds is, if all three steps succeeded, the body
    of the function's response as [functions.invoke] returned it, and
    otherwise whatever was held before, which a failed run does not
    clear.  A file that fails validation changes nothing.  The body the
    worker answers with status 200 is the payload wrapped in
    [{ data: ... }]; held as it is, its [total], [date], [merchant]
    and [items] are undefined, and the payload sits under [data]. *)
Theorem upload_state_after_run env st file rest :
  let final := after_upload st (Upload.handleFileUpload env (Some (file :: rest))) in
  (passes_validation file ->
   final = {| uploading := false; processing_flag := false; progress := 0;
              extractedData :=
                match Upload.uploadError env, Upload.insert_result env,
                      Upload.invoke_result env with
                | None, inr _, inr body => Some body
                | _, _, _ => extractedData st
                end |})
  /\ (~ passes_validation file -> final = st)
  /\ (forall req wenv (db : Receipts),
        Worker.method req <> "OPTIONS" ->
        Worker.status (fst (Worker.invoke req wenv db)) = 200 ->
        Upload.invoke_result env = inr (Worker.body (fst (Worker.invoke req wenv db))) ->
        passes_validation file ->
        succeeds env = true ->
        extractedData final = Some (Worker.JsonData (Worker.mockExtractedData wenv))
        /\ shown "total" final = None
        /\ shown "date" final = None
        /\ shown "merchant" final = None
        /\ shown "items" final = None
        /\ shown "data" final = Some (payload_json (Worker.mockExtractedData wenv))).
Proof.
  cbv zeta.
  assert (Hvalid : passes_validation file ->
    after_upload st (Upload.handleFileUpload env (Some (file :: rest)))
    = {| uploading := false; processing_flag := false; progress := 0;
         extractedData :=
           match Upload.uploadError env, Upload.insert_result env,
                 Upload.invoke_result env with
           | None, inr _, inr body => Some body
           | _, _, _ => extractedData st
           end |}).
  { intros Hv. rewrite valid_file_trace by exact Hv. unfold_upload.
    destruct (Upload.uploadError env) as [e1|];
      [|destruct (Upload.insert_result env) as [e2|id];
        [|destruct (Upload.invoke_result env) as [e3|data]]]; reflexivity. }
  split; [exact Hvalid|]. split.
  - intros Hv. rewrite invalid_file_trace by exact Hv. reflexivity.
  - intros req wenv db Hm H200 Hres Hv Hok. rewrite (Hvalid Hv).
    rewrite (ok_response_is_wrapped req wenv db Hm H200) in Hres.
    unfold succeeds in Hok. unfold shown. cbn [extractedData].
    destruct (Upload.uploadError env) as [e1|]; [discriminate Hok|].
    destruct (Upload.insert_result env) as [e2|id]; [discriminate Hok|].
    rewrite Hres. repeat split; reflexivity.
Qed.

(** X12: every run on a file shows exactly one toast; the callback
    [onReceiptProcessed] is called once when the file passes validation
    and all three steps succeed, with the success toast, and is not
    called otherwise, when the one toast is a destructive one. *)
Theorem one_toast_and_callback_on_success env file rest :
  let tr := Upload.handleFileUpload env (Some (file :: rest)) in
  length (Upload.toasts tr) = 1%nat
  /\ (passes_validation file /\ succeeds env = true ->
      callbacks tr = 1%nat /\ Upload.toasts tr = [Upload.success_toast])
  /\ (~ (passes_validation file /\ succeeds env = true) ->
      callbacks tr = 0%nat
      /\ exists t, Upload.toasts tr = [t] /\ Upload.variant t = Some "destructive").
Proof.
  cbv zeta. destruct (passes_validation_decide file) as [Hv|Hbad].
  - rewrite valid_file_trace by exact Hv. unfold_upload. unfold succeeds.
    destruct (Upload.uploadError env) as [e1|];
      [|destruct (Upload.insert_result env) as [e2|id];
        [|destruct (Upload.invoke_result env) as [e3|data]]]; cbn;
      (split; [reflexivity|split]).
    1, 3, 5: intros [_ H]; discriminate H.
    1, 2, 3: intros _; split; [reflexivity|eexists; split; reflexivity].
    + intros _. split; reflexivity.
    + intros H. exfalso. apply H. by split.
  - rewrite invalid_file_trace by exact Hbad.
    split; [reflexivity|split]; [intros [Hv _]; contradiction|].
    intros _. split; [reflexivity|].
    destruct (Upload.includes _ _); eexists; split; reflexivity.
Qed.

(** X13: the extension [uploadFile] takes from a file name has no dot in
    it and is the end of the name, after a prefix that is empty or ends
    in a dot; for a name without a dot it is the whole name. *)
Theorem file_extension_is_the_last_piece name :
  let fileExt := Upload.last_piece "." name in
  ~ occurs "." fileExt
  /\ (exists pre, name = pre ++ fileExt /\ (pre = "" \/ exists q, pre = q ++ "."))
  /\ (~ occurs "." name -> fileExt = name).
Proof.
  cbv zeta.
  destruct (MoreJsFacts.last_piece_spec "." name) as (Hno & pre & Hs & Hpre).
  split; [exact Hno|]. split; [by exists pre|].
  intros Hfree. destruct Hpre as [->|[q ->]]; [by rewrite Hs at 2|].
  exfalso. apply Hfree. rewrite Hs.
  apply MoreJsFacts.occurs_app_l, MoreJsFacts.occurs_suffix.
Qed.

(** X14: for a clock in the years 0000 to 9999, the text
    [new Date().toISOString().split('T')[0]] reads back as a year, a
    month and a day whose day number is the UTC day of the clock
    reading: it is the date in UTC. *)
Theorem iso_date_of_clock_is_the_utc_day t :
  four_digit_year t ->
  exists y m d,
    parse_iso_date (hd "" (Js.split "T" (Js.toISOString t))) = Some (y, m, d)
    /\ Js.MakeDay y m d = Js.Day t.
Proof.
  intros Hnow. rewrite JsFacts.toISOString_date by exact Hnow.
  set (z := Js.Day t).
  exists (Js.YearFromDay z), (Js.MonthFromDay z), (Js.DateFromDay z).
  destruct (JsFacts.date_of_day_valid z) as [Hm Hd].
  pose proof (MoreJsFacts.DaysInMonth_le_31 (Js.YearFromDay z) (Js.MonthFromDay z)).
  split; [|apply JsFacts.MakeDay_of_day].
  apply MoreJsFacts.parse_date_text;
    [apply JsFacts.year_of_four_digit_year; exact Hnow | lia | lia].
Qed.

Lemma iso_date_of_clock_is_the_utc_day_witness :
  exists y m d,
    parse_iso_date (date (Worker.mockExtractedData Sample.env)) = Some (y, m, d)
    /\ Js.MakeDay y m d = Js.Day (Worker.now Sample.env).
Proof.
  apply (iso_date_of_clock_is_the_utc_day (Worker.now Sample.env)).
  unfold four_digit_year. cbn. lia.
Defined.

(** X15: with every amount positive (the CHECK of the README schema),
    the income and the expenses of [getTotalsByType] are not negative
    and the balance lies between minus the expenses and the income. *)
Theorem totals_of_positive_amounts transactions :
  Forall (fun t => (0 < Tx.amount t)%Q) transactions ->
  let totals := TransactionList.getTotalsByType transactions in
  (0 <= TransactionList.income totals)%Q
  /\ (0 <= TransactionList.expenses totals)%Q
  /\ (TransactionList.balance totals <= TransactionList.income totals)%Q
  /\ (- TransactionList.expenses totals <= TransactionList.balance totals)%Q.
Proof.
  intros Hpos totals. subst totals. unfold TransactionList.getTotalsByType.
  cbn [TransactionList.income TransactionList.expenses TransactionList.balance].
  pose proof (sum_amounts_nonneg _ (Forall_filter_keep _ Tx.is_income _ Hpos)) as Hi.
  pose proof (sum_amounts_nonneg _ (Forall_filter_keep _ Tx.is_expense _ Hpos)) as He.
  set (i := Tx.sum_amounts _) in *. set (e := Tx.sum_amounts _) in *.
  repeat split; try done.
  - unfold Qle, Qminus, Qplus, Qopp in *. cbn in *. nia.
  - unfold Qle, Qminus, Qplus, Qopp in *. cbn in *. nia.
Qed.

Lemma totals_of_positive_amounts_witness :
  let totals := TransactionList.getTotalsByType Demo.ledger in
  (0 <= TransactionList.income totals)%Q
  /\ (0 <= TransactionList.expenses totals)%Q
  /\ (TransactionList.balance totals <= TransactionList.income totals)%Q
  /\ (- TransactionList.expenses totals <= TransactionList.balance totals)%Q.
Proof.
  apply (totals_of_positive_amounts Demo.ledger).
  repeat constructor.
Defined.

(** X16: one more transaction at the end of the list adds its amount to
    the total of its own type and leaves the other total as it was. *)
Theorem totals_after_one_more transactions t :
  let before := TransactionList.getTotalsByType transactions in
  let after := TransactionList.getTotalsByType (transactions ++ [t]) in
  match Tx.type t with
  | Income =>
      TransactionList.income after
      = (TransactionList.income before + Tx.amount t)%Q
      /\ TransactionList.expenses after = TransactionList.expenses before
  | Expense =>
      TransactionList.income after = TransactionList.income before
      /\ TransactionList.expenses after
         = (TransactionList.expenses before + Tx.amount t)%Q
  end.
Proof.
  cbv zeta. unfold TransactionList.getTotalsByType.
  cbn [TransactionList.income TransactionList.expenses].
  rewrite !List.filter_app. cbn [List.filter]. unfold Tx.is_income, Tx.is_expense.
  destruct (Tx.type t); repeat case_bool_decide; try congruence;
    rewrite ?app_nil_r, ?sum_amounts_snoc; split; reflexivity.
Qed.

(** X17: [clearFilters] empties the two date fields, but the query it
    sends still carries the dates of the render it was created in, so
    the list it loads is the one [handleFilter] would load from the
    same render. *)
Theorem clearFilters_queries_with_the_old_filters st env :
  let st' := TransactionList.after st (TransactionList.clearFilters st env) in
  TransactionList.startDate st' = ""
  /\ TransactionList.endDate st' = ""
  /\ TransactionList.queries (TransactionList.clearFilters st env)
     = [TransactionList.select_transactions
          (if truthy (TransactionList.startDate st)
           then Some (TransactionList.startDate st) else None)
          (if truthy (TransactionList.endDate st)
           then Some (TransactionList.endDate st) else None)]
  /\ TransactionList.transactions st'
     = TransactionList.transactions
         (TransactionList.after st (TransactionList.handleFilter st env)).
Proof.
  cbv zeta.
  unfold TransactionList.clearFilters, TransactionList.handleFilter,
    TransactionList.fetchTransactions, TransactionList.after.
  destruct (TransactionList.query_result env _ _) as [e|data];
    cbn; repeat split; reflexivity.
Qed.

(** X18: [fetchTransactions] sends one query, with a lower bound only
    for a non-empty start date and an upper bound only for a non-empty
    end date, and ends with loading off; on an error the list shown
    stays as it was, and null data shows as the empty list. *)
Theorem fetch_keeps_list_on_error st env :
  let gte := if truthy (TransactionList.startDate st)
             then Some (TransactionList.startDate st) else None in
  let lte := if truthy (TransactionList.endDate st)
             then Some (TransactionList.endDate st) else None in
  let tr := TransactionList.fetchTransactions st env in
  let st' := TransactionList.after st tr in
  TransactionList.queries tr = [TransactionList.select_transactions gte lte]
  /\ TransactionList.loading st' = false
  /\ TransactionList.startDate st' = TransactionList.startDate st
  /\ TransactionList.endDate st' = TransactionList.endDate st
  /\ TransactionList.transactions st'
     = match TransactionList.query_result env gte lte with
       | inl _ => TransactionList.transactions st
       | inr data => default [] data
       end.
Proof.
  cbv zeta.
  unfold TransactionList.fetchTransactions, TransactionList.after.
  destruct (TransactionList.query_result env _ _) as [e|data];
    cbn; repeat split; reflexivity.
Qed.

(** X19: [getExpensesByCategory] gives one slice for each category name
    among the expenses (a missing category or an empty name counting as
    "Uncategorized"), and no other: the names are distinct, and the
    slice of a name has the colour of the first expense of that name
    and, as value, the amounts of the expenses of that name added in
    order.  Income is not counted. *)
Theorem expenses_by_category_slices transactions :
  let slices := FinancialCharts.getExpensesByCategory transactions in
  NoDup (map FinancialCharts.name slices)
  /\ (forall entry,
        In entry slices
        <-> FinancialCharts.slice (FinancialCharts.name entry) transactions
            = Some entry)
  /\ (forall t, In t transactions -> Tx.type t = Expense ->
        exists entry, In entry slices
                      /\ FinancialCharts.name entry = FinancialCharts.categoryName t).
Proof.
  cbv zeta. rewrite getExpensesByCategory_fold.
  set (exps := List.filter Tx.is_expense transactions).
  assert (Hexp : Forall (fun t => Tx.is_expense t = true) exps).
  { apply Forall_forall. intros t Ht. apply list_elem_of_In in Ht.
    by apply List.filter_In in Ht as [_ Ht]. }
  pose proof (category_fold_NoDup exps) as Hnd.
  assert (Hget : forall k, FinancialCharts.mget k
                             (fold_left FinancialCharts.category_step exps [])
                           = FinancialCharts.slice k transactions).
  { intros k. rewrite category_fold_get by exact Hexp. apply slice_expenses. }
  assert (Hin : forall entry,
             In entry (FinancialCharts.mvalues
                         (fold_left FinancialCharts.category_step exps []))
             <-> FinancialCharts.slice (FinancialCharts.name entry) transactions
                 = Some entry).
  { intros entry. rewrite in_mvalues by exact Hnd. split.
    - intros [k Hk]. rewrite Hget in Hk.
      by rewrite (slice_name k _ _ Hk).
    - intros H. exists (FinancialCharts.name entry). by rewrite Hget. }
  split; [|split; [exact Hin|]].
  - rewrite names_are_keys; [exact Hnd|].
    intros k e Hke. apply (mget_In _ _ _ Hnd) in Hke.
    rewrite Hget in Hke. by eapply slice_name.
  - intros t Ht Hty.
    destruct (FinancialCharts.slice (FinancialCharts.categoryName t) transactions)
      as [entry|] eqn:E.
    + exists entry. pose proof (slice_name _ _ _ E) as Hn.
      split; [|exact Hn]. apply Hin. by rewrite Hn.
    + exfalso. unfold FinancialCharts.slice in E.
      set (mine := List.filter
                 (fun t0 => Tx.is_expense t0
                            && String.eqb (FinancialCharts.categoryName t0)
                                 (FinancialCharts.categoryName t)) transactions) in E.
      assert (Hin' : In t mine).
      { apply List.filter_In. split; [exact Ht|].
        unfold Tx.is_expense. rewrite bool_decide_eq_true_2 by exact Hty.
        cbn. apply String.eqb_refl. }
      clearbody mine.
      destruct mine as [|t0 ts]; [destruct Hin'|discriminate E].
Qed.

(** X20: for a [localeCompare] that is a total preorder,
    [getDailyTrends] gives the entries in ascending order of date, one
    for each date that occurs and no other, and the entry of a date
    holds the amounts of that date's transactions added in order from
    0: under income those of type income, under expenses all others. *)
Theorem daily_trends_grouped_and_sorted localeCompare transactions :
  (forall a b, localeCompare a b <= 0 \/ localeCompare b a <= 0) ->
  (forall a b c, localeCompare a b <= 0 -> localeCompare b c <= 0 ->
                 localeCompare a c <= 0) ->
  let trends := FinancialCharts.getDailyTrends localeCompare transactions in
  StronglySorted (FinancialCharts.label_le localeCompare) trends
  /\ NoDup (map FinancialCharts.label trends)
  /\ (forall entry,
        In entry trends
        <-> exists t, In t transactions
                      /\ entry = FinancialCharts.bucket Tx.date (Tx.date t) transactions).
Proof.
  intros Htotal Htrans. apply (trends_spec localeCompare Htotal Htrans Tx.date).
Qed.

Lemma daily_trends_grouped_and_sorted_witness :
  let trends := FinancialCharts.getDailyTrends codepoint_compare Demo.ledger in
  StronglySorted (FinancialCharts.label_le codepoint_compare) trends
  /\ NoDup (map FinancialCharts.label trends).
Proof.
  destruct (daily_trends_grouped_and_sorted codepoint_compare Demo.ledger
              CompareFacts.codepoint_compare_total
              CompareFacts.codepoint_compare_trans) as (Hs & Hn & _).
  split; assumption.
Defined.

(** X21: likewise [getMonthlyComparison], with the first seven
    characters of the date as the key: the entries are in ascending
    order of month, one for each month that occurs, each holding the
    amounts of its month. *)
Theorem monthly_comparison_grouped_and_sorted localeCompare transactions :
  (forall a b, localeCompare a b <= 0 \/ localeCompare b a <= 0) ->
  (forall a b c, localeCompare a b <= 0 -> localeCompare b c <= 0 ->
                 localeCompare a c <= 0) ->
  let month := fun t => substring 0 7 (Tx.date t) in
  let months := FinancialCharts.getMonthlyComparison localeCompare transactions in
  StronglySorted (FinancialCharts.label_le localeCompare) months
  /\ NoDup (map FinancialCharts.label months)
  /\ (forall entry,
        In entry months
        <-> exists t, In t transactions
                      /\ entry = FinancialCharts.bucket month (month t) transactions).
Proof.
  intros Htotal Htrans.
  apply (trends_spec localeCompare Htotal Htrans (fun t => substring 0 7 (Tx.date t))).
Qed.

Lemma monthly_comparison_grouped_and_sorted_witness :
  let months := FinancialCharts.getMonthlyComparison codepoint_compare Demo.ledger in
  StronglySorted (FinancialCharts.label_le codepoint_compare) months
  /\ NoDup (map FinancialCharts.label months).
Proof.
  destruct (monthly_comparison_grouped_and_sorted codepoint_compare Demo.ledger
              CompareFacts.codepoint_compare_total
              CompareFacts.codepoint_compare_trans) as (Hs & Hn & _).
  split; assumption.
Defined.

(** X22: [handleSubmit] sends one invocation of create-transaction,
    built from the fields of the form, and ends with loading off; the
    type and the categories stay.  Only when the invocation returns
    without an error are the amount, the description and the category
    emptied, the date set to today's and the callback called; when it
    returns an error or throws, every field keeps what the user
    typed. *)
Theorem submit_resets_form_only_on_success st env :
  let tr := TransactionForm.handleSubmit st env in
  let st' := TransactionForm.after st tr in
  TransactionForm.invocations tr
  = [TransactionForm.functions_invoke "create-transaction"
       {| TransactionForm.body_type := TransactionForm.type st;
          TransactionForm.body_amount :=
            TransactionForm.parseFloat env (TransactionForm.amount st);
          TransactionForm.body_description := TransactionForm.description st;
          TransactionForm.body_category_id := TransactionForm.categoryId st;
          TransactionForm.body_date := TransactionForm.date st |}]
  /\ TransactionForm.loading st' = false
  /\ TransactionForm.type st' = TransactionForm.type st
  /\ TransactionForm.categories st' = TransactionForm.categories st
  /\ match TransactionForm.invoke_outcome env with
     | TransactionForm.Returned None =>
         TransactionForm.amount st' = ""
         /\ TransactionForm.description st' = ""
         /\ TransactionForm.categoryId st' = ""
         /\ TransactionForm.date st' = TransactionForm.today env
         /\ TransactionForm.callbacks tr = 1%nat
     | _ =>
         TransactionForm.amount st' = TransactionForm.amount st
         /\ TransactionForm.description st' = TransactionForm.description st
         /\ TransactionForm.categoryId st' = TransactionForm.categoryId st
         /\ TransactionForm.date st' = TransactionForm.date st
         /\ TransactionForm.callbacks tr = 0%nat
     end.
Proof.
  cbv zeta. unfold TransactionForm.handleSubmit, TransactionForm.after.
  destruct (TransactionForm.invoke_outcome env) as [[message|]|];
    cbn; repeat split; reflexivity.
Qed.
